(** * The wallet ledger service (package [wallet]) and its specification.

    The Go service owns three slices of pointers (accounts, payments,
    favorites) and a counter.  Every pointer stored in a slice comes from a
    fresh allocation, so a pointer is modelled by the position of its target
    in the slice and a mutation through the pointer by an in-place list
    update.  Money and identifiers are [int64]: they are integers of [Z] and
    every addition and subtraction of the source is followed by the two's
    complement wrap-around [wrap64]. *)

From Stdlib Require Import ZArith Lia Ascii String.
From stdpp Require Import base option list strings gmap.

Local Open Scope Z_scope.

(** ** Machine integers *)

Definition int64_min : Z := - 2 ^ 63.
Definition int64_max : Z := 2 ^ 63 - 1.

Definition int64_range (z : Z) : Prop := int64_min <= z <= int64_max.

(** Result of an [int64] operation of Go: the value modulo [2^64], taken in
    the signed range. *)
Definition wrap64 (z : Z) : Z := (z + 2 ^ 63) mod 2 ^ 64 - 2 ^ 63.

(** ** Package [types] *)

(** Modelled from the spec: package [pkg/types] is not part of the sources;
    [Money] is the signed integer amount in the smallest currency unit, the
    other three are free-form strings. *)
Definition Money : Type := Z.
Definition Phone : Type := string.
Definition PaymentCategory : Type := string.
Definition PaymentStatus : Type := string.

(** Modelled from the spec: the two payment statuses of package [types]. *)
Definition PaymentStatusInProgress : PaymentStatus := "INPROGRESS"%string.
Definition PaymentStatusFail : PaymentStatus := "FAIL"%string.

Module Account.
Record t : Type := mk { ID : Z; Phone : Phone; Balance : Money }.
End Account.

Module Payment.
Record t : Type := mk {
  ID : string;
  AccountID : Z;
  Amount : Money;
  Category : PaymentCategory;
  Status : PaymentStatus
}.
End Payment.

Module Favorite.
Record t : Type := mk {
  ID : string;
  AccountID : Z;
  Name : string;
  Amount : Money;
  Category : PaymentCategory
}.
End Favorite.

(** ** Errors and results *)

Inductive error : Type :=
| ErrPhoneRegistered
| ErrAmountMustBePositive
| ErrAccountNotFound
| ErrNotEnoughtBalance
| ErrPaymentNotFound
| ErrFavoriteNotFound
| ErrFileNotFound
| ErrSyntax   (* strconv: the text is not a decimal integer *)
| ErrRange.   (* strconv: the integer does not fit the type *)

(** What a call gives back: a value with a [nil] error, an error, or a
    run-time panic (index out of range). *)
Inductive outcome (A : Type) : Type :=
| Ok (a : A)
| Err (e : error)
| Panic.
Arguments Ok {A} a.
Arguments Err {A} e.
Arguments Panic {A}.

(** ** The service *)

Record Service : Type := mkService {
  nextAccountID : Z;
  accounts : list Account.t;
  payments : list Payment.t;
  favorites : list Favorite.t
}.

(** [&wallet.Service{}] *)
Definition newService : Service := mkService 0 [] [] [].

Definition set_accounts (s : Service) (l : list Account.t) : Service :=
  mkService (nextAccountID s) l (payments s) (favorites s).
Definition set_payments (s : Service) (l : list Payment.t) : Service :=
  mkService (nextAccountID s) (accounts s) l (favorites s).
Definition set_favorites (s : Service) (l : list Favorite.t) : Service :=
  mkService (nextAccountID s) (accounts s) (payments s) l.

Definition set_Balance (a : Account.t) (b : Money) : Account.t :=
  Account.mk (Account.ID a) (Account.Phone a) b.
Definition set_Status (p : Payment.t) (st : PaymentStatus) : Payment.t :=
  Payment.mk (Payment.ID p) (Payment.AccountID p) (Payment.Amount p)
    (Payment.Category p) st.

(** A [range] loop that keeps the last element satisfying [P] (no [break]):
    [found] is the variable assigned in the loop body, [i] the position of
    the head of [l] in the whole slice. *)
Fixpoint scan_last {A : Type} (P : A -> bool) (l : list A) (i : nat)
    (found : option (nat * A)) : option (nat * A) :=
  match l with
  | [] => found
  | x :: l' => scan_last P l' (S i) (if P x then Some (i, x) else found)
  end.

Definition has_phone (phone : Phone) (a : Account.t) : bool :=
  bool_decide (Account.Phone a = phone).

Definition RegisterAccount (s : Service) (phone : Phone) : Service * outcome nat :=
  if existsb (has_phone phone) (accounts s) then (s, Err ErrPhoneRegistered)
  else
    let next := wrap64 (nextAccountID s + 1) in
    let account := Account.mk next phone 0 in
    (mkService next (accounts s ++ [account]) (payments s) (favorites s),
     Ok (length (accounts s))).

(** The loop with [break] of [FindAccountByID] and [Pay]: the first account
    with the identifier, with its position. *)
Definition lookup_account (l : list Account.t) (accountID : Z) : option (nat * Account.t) :=
  list_find (fun acc => Account.ID acc = accountID) l.

Definition FindAccountByID (s : Service) (accountID : Z) : outcome (nat * Account.t) :=
  match lookup_account (accounts s) accountID with
  | Some r => Ok r
  | None => Err ErrAccountNotFound
  end.

Definition FindPaymentByID (s : Service) (paymentID : string) : outcome (nat * Payment.t) :=
  match scan_last (fun pay => bool_decide (Payment.ID pay = paymentID)) (payments s) 0%nat None with
  | Some r => Ok r
  | None => Err ErrPaymentNotFound
  end.

Definition FindFavoriteByID (s : Service) (favoriteID : string) : outcome (nat * Favorite.t) :=
  match list_find (fun favorite => Favorite.ID favorite = favoriteID) (favorites s) with
  | Some r => Ok r
  | None => Err ErrFavoriteNotFound
  end.

(** [uuid] is the string that [uuid.New().String()] returns in this call. *)
Definition Pay (s : Service) (accountID : Z) (amount : Money)
    (category : PaymentCategory) (uuid : string) : Service * outcome (nat * Payment.t) :=
  if amount <=? 0 then (s, Err ErrAmountMustBePositive)
  else
    match lookup_account (accounts s) accountID with
    | None => (s, Err ErrAccountNotFound)
    | Some (i, account) =>
        if Account.Balance account <? amount then (s, Err ErrNotEnoughtBalance)
        else
          let account' := set_Balance account (wrap64 (Account.Balance account - amount)) in
          let payment := Payment.mk uuid accountID amount category PaymentStatusInProgress in
          (mkService (nextAccountID s) (<[i := account']> (accounts s))
             (payments s ++ [payment]) (favorites s),
           Ok (length (payments s), payment))
    end.

Definition Deposit (s : Service) (accountID : Z) (amount : Money) : Service * outcome unit :=
  if amount <? 0 then (s, Err ErrAmountMustBePositive)
  else
    match FindAccountByID s accountID with
    | Ok (i, account) =>
        (set_accounts s
           (<[i := set_Balance account (wrap64 (Account.Balance account + amount))]> (accounts s)),
         Ok tt)
    | Err e => (s, Err e)
    | Panic => (s, Panic)
    end.

Definition Reject (s : Service) (paymentID : string) : Service * outcome unit :=
  match FindPaymentByID s paymentID with
  | Ok (k, pay) =>
      match FindAccountByID s (Payment.AccountID pay) with
      | Ok (i, acc) =>
          (mkService (nextAccountID s)
             (<[i := set_Balance acc (wrap64 (Account.Balance acc + Payment.Amount pay))]>
                (accounts s))
             (<[k := set_Status pay PaymentStatusFail]> (payments s))
             (favorites s),
           Ok tt)
      | Err e => (s, Err e)
      | Panic => (s, Panic)
      end
  | Err e => (s, Err e)
  | Panic => (s, Panic)
  end.

(** ** The parallel aggregator *)

(** [for _, payment := range payments { val += int64(payment.Amount) }] *)
Definition worker (chunk : list Payment.t) : Z :=
  foldl (fun val payment => wrap64 (val + Payment.Amount payment)) 0 chunk.

(** [sum += val], once per worker, in the order in which the workers take
    the mutex. *)
Definition accumulate (vals : list Z) : Z :=
  foldl (fun sum val => wrap64 (sum + val)) 0 vals.

(** [l[lo:hi]]; out-of-range bounds panic.  (Go checks [hi] against the
    capacity; the model checks it against the length.) *)
Definition slice {A : Type} (l : list A) (lo hi : Z) : outcome (list A) :=
  if (0 <=? lo) && (lo <=? hi) && (hi <=? Z.of_nat (length l))
  then Ok (take (Z.to_nat (hi - lo)) (drop (Z.to_nat lo) l))
  else Panic.

Definition chunk_size (len : nat) (goroutines : Z) : Z :=
  if goroutines =? 0 then Z.of_nat len else Z.quot (Z.of_nat len) goroutines.

(** Number of iterations of [for i = 0; i < goroutines-1; i++]; it is also
    the value of [i] after the loop. *)
Definition loop_count (goroutines : Z) : nat := Z.to_nat (wrap64 (goroutines - 1)).

(** The slices read by the workers started in the loop, by index. *)
Fixpoint loop_chunks (l : list Payment.t) (kol : Z) (index : nat) (n : nat)
    : outcome (list (list Payment.t)) :=
  match n with
  | O => Ok []
  | S n' =>
      match slice l (Z.of_nat index * kol) ((Z.of_nat index + 1) * kol) with
      | Ok c =>
          match loop_chunks l kol (S index) n' with
          | Ok cs => Ok (c :: cs)
          | Err e => Err e
          | Panic => Panic
          end
      | Err e => Err e
      | Panic => Panic
      end
  end.

(** All the slices read by the workers of [SumPayments]: those of the loop,
    then [s.payments[i*kol:]]. *)
Definition chunks (l : list Payment.t) (goroutines : Z) : outcome (list (list Payment.t)) :=
  let kol := chunk_size (length l) goroutines in
  let i := loop_count goroutines in
  match loop_chunks l kol 0 i with
  | Ok cs =>
      match slice l (Z.of_nat i * kol) (Z.of_nat (length l)) with
      | Ok c => Ok (cs ++ [c])
      | Err e => Err e
      | Panic => Panic
      end
  | Err e => Err e
  | Panic => Panic
  end.

(** [SumPayments] when the workers reach the mutex in the order in which
    they were started. *)
Definition SumPayments (s : Service) (goroutines : Z) : outcome Money :=
  match chunks (payments s) goroutines with
  | Ok cs => Ok (accumulate (map worker cs))
  | Err e => Err e
  | Panic => Panic
  end.

(** [SumPayments] under any interleaving: [vals] are the subtotals of the
    workers in the order in which they take the mutex. *)
Definition SumPayments_returns (s : Service) (goroutines : Z) (v : Money) : Prop :=
  exists cs vals,
    chunks (payments s) goroutines = Ok cs /\
    Permutation vals (map worker cs) /\
    v = accumulate vals.

Definition sum_amounts (l : list Payment.t) : Z :=
  foldr (fun p acc => Payment.Amount p + acc) 0 l.

(** ** Strings and numbers of the Go library *)

Definition semicolon : ascii := ";"%char.
Definition pipe : ascii := "|"%char.
Definition newline : ascii := ascii_of_nat 10.

(** [strings.Split(s, sep)] for a separator of one byte. *)
Fixpoint Split (s : string) (sep : ascii) : list string :=
  match s with
  | EmptyString => [EmptyString]
  | String c s' =>
      if bool_decide (c = sep) then EmptyString :: Split s' sep
      else
        match Split s' sep with
        | h :: t => String c h :: t
        | [] => [String c EmptyString]
        end
  end.

(** [l[:len(l)-1]] under the guard [len(l) > 0]. *)
Definition drop_last {A : Type} (l : list A) : list A :=
  if decide (0 < length l)%nat then take (length l - 1) l else l.

(** [l[i]] *)
Definition index {A : Type} (l : list A) (i : nat) : outcome A :=
  match l !! i with
  | Some x => Ok x
  | None => Panic
  end.

#[global] Instance outcome_bind : MBind outcome := fun A B f o =>
  match o with
  | Ok a => f a
  | Err e => Err e
  | Panic => Panic
  end.

Definition digit (c : ascii) : option Z :=
  let n := Z.of_nat (nat_of_ascii c) in
  if (48 <=? n) && (n <=? 57) then Some (n - 48) else None.

Definition uint64_max : Z := 2 ^ 64 - 1.

(** [strconv.ParseUint(s, 10, 64)] on the digits after the sign: [n] is the
    value read so far. *)
Fixpoint parse_uint (s : string) (n : Z) : outcome Z :=
  match s with
  | EmptyString => Ok n
  | String c s' =>
      match digit c with
      | None => Err ErrSyntax
      | Some d =>
          let n1 := 10 * n + d in
          if uint64_max <? n1 then Err ErrRange else parse_uint s' n1
      end
  end.

(** [strconv.ParseInt(s, 10, 64)] *)
Definition ParseInt (s : string) : outcome Z :=
  match s with
  | EmptyString => Err ErrSyntax
  | String c s' =>
      let neg := bool_decide (c = "-"%char) in
      let body := if bool_decide (c = "+"%char) || neg then s' else s in
      match body with
      | EmptyString => Err ErrSyntax
      | _ =>
          un ← parse_uint body 0;
          if negb neg && (2 ^ 63 <=? un) then Err ErrRange
          else if neg && (2 ^ 63 <? un) then Err ErrRange
          else Ok (if neg then - un else un)
      end
  end.

(** [strconv.Atoi], with [int] of 64 bits. *)
Definition Atoi (s : string) : outcome Z := ParseInt s.

Definition digit_char (d : Z) : ascii := ascii_of_nat (48 + Z.to_nat d).

(** The loop of [strconv.FormatInt]: the decimal digits of [n], least
    significant first, are put in front of [acc].  The fuel bounds the
    number of digits. *)
Fixpoint format_digits (fuel : nat) (n : Z) (acc : string) : string :=
  match fuel with
  | O => acc
  | S fuel' =>
      let acc' := String (digit_char (n mod 10)) acc in
      if n <? 10 then acc' else format_digits fuel' (n / 10) acc'
  end.

(** [strconv.Itoa(int(z))] and [fmt.Sprint(z)] for an [int64]: the decimal
    numeral, with a minus sign for a negative number.  An [int64] has at
    most 19 digits. *)
Definition Itoa (z : Z) : string :=
  if z <? 0 then String "-"%char (format_digits 20 (- z) EmptyString)
  else format_digits 20 z EmptyString.

(** ** The file system *)

(** The files with their contents, and the paths the system refuses to
    create or open for writing.  A file that exists can be read. *)
Record FS : Type := mkFS {
  files : gmap string string;
  denied : string -> bool
}.

Definition write_file (fs : FS) (path : string) (content : string) : FS :=
  mkFS (<[path := content]> (files fs)) (denied fs).

(** ** Format A: one file, accounts only *)

(** The text built by the loop of [ExportToFile]. *)
Fixpoint export_text (l : list Account.t) : string :=
  match l with
  | [] => EmptyString
  | acc :: l' =>
      (Itoa (Account.ID acc) +:+ ";") +:+ (Account.Phone acc +:+ ";")
        +:+ (Itoa (Account.Balance acc) +:+ "|") +:+ export_text l'
  end.

(** [os.Create] fails on a refused path; writing to the created file is
    taken to succeed. *)
Definition ExportToFile (s : Service) (path : string) (fs : FS) : FS * outcome unit :=
  if denied fs path then (fs, Err ErrFileNotFound)
  else (write_file fs path (export_text (accounts s)), Ok tt).

(** One iteration of the loop of [ImportFromFile], up to the new account. *)
Definition parse_record (acc : string) : outcome Account.t :=
  let splits := Split acc semicolon in
  f0 ← index splits 0; id ← Atoi f0;
  f2 ← index splits 2; balance ← Atoi f2;
  f1 ← index splits 1;
  Ok (Account.mk id f1 balance).

Fixpoint import_records (s : Service) (records : list string) : Service * outcome unit :=
  match records with
  | [] => (s, Ok tt)
  | acc :: rest =>
      match parse_record acc with
      | Ok newAccount => import_records (set_accounts s (accounts s ++ [newAccount])) rest
      | Err e => (s, Err e)
      | Panic => (s, Panic)
      end
  end.

(** The records of a Format A text: [strings.Split(data, "|")] without its
    last element. *)
Definition records_of (data : string) : list string := drop_last (Split data pipe).

(** [os.Open] fails when the file does not exist; reading an open file is
    taken to succeed, so [data] is the whole content. *)
Definition ImportFromFile (s : Service) (path : string) (fs : FS) : Service * outcome unit :=
  match files fs !! path with
  | None => (s, Err ErrFileNotFound)
  | Some data => import_records s (records_of data)
  end.

(** ** Format B: one file per collection in a directory *)

Definition accounts_dump (dir : string) : string := dir +:+ "/accounts.dump".
Definition payments_dump (dir : string) : string := dir +:+ "/payments.dump".
Definition favorites_dump (dir : string) : string := dir +:+ "/favorites.dump".

Definition nl : string := String newline EmptyString.

Fixpoint dump_accounts (l : list Account.t) : string :=
  match l with
  | [] => EmptyString
  | v :: l' =>
      (Itoa (Account.ID v) +:+ ";" +:+ Account.Phone v +:+ ";"
         +:+ Itoa (Account.Balance v) +:+ nl) +:+ dump_accounts l'
  end.

Fixpoint dump_payments (l : list Payment.t) : string :=
  match l with
  | [] => EmptyString
  | v :: l' =>
      (Payment.ID v +:+ ";" +:+ Itoa (Payment.AccountID v) +:+ ";"
         +:+ Itoa (Payment.Amount v) +:+ ";" +:+ Payment.Category v +:+ ";"
         +:+ Payment.Status v +:+ nl) +:+ dump_payments l'
  end.

Fixpoint dump_favorites (l : list Favorite.t) : string :=
  match l with
  | [] => EmptyString
  | v :: l' =>
      (Favorite.ID v +:+ ";" +:+ Itoa (Favorite.AccountID v) +:+ ";"
         +:+ Itoa (Favorite.Amount v) +:+ ";" +:+ Favorite.Category v +:+ nl)
        +:+ dump_favorites l'
  end.

(** [os.OpenFile] followed by [file.WriteString]: the error of [OpenFile] is
    not looked at, and writing to the [nil] file does nothing. *)
Definition open_and_write (fs : FS) (path : string) (content : string) : FS :=
  if denied fs path then fs else write_file fs path content.

Definition Export (s : Service) (dir : string) (fs : FS) : FS * outcome unit :=
  let fs1 :=
    if decide (0 < length (accounts s))%nat
    then open_and_write fs (accounts_dump dir) (dump_accounts (accounts s)) else fs in
  let fs2 :=
    if decide (0 < length (payments s))%nat
    then open_and_write fs1 (payments_dump dir) (dump_payments (payments s)) else fs1 in
  let fs3 :=
    if decide (0 < length (favorites s))%nat
    then open_and_write fs2 (favorites_dump dir) (dump_favorites (favorites s)) else fs2 in
  (fs3, Ok tt).

(** The lines of a dump: [strings.Split(content, "\n")] without its last
    element. *)
Definition lines_of (content : string) : list string := drop_last (Split content newline).

(** The inner loop over [s.accounts] and the [flag] test after it: every
    account with the identifier is overwritten, and a new account is
    appended when there is none. *)
Definition merge_account (l : list Account.t) (id : Z) (phone : Phone) (balance : Money)
    : list Account.t :=
  let flag := forallb (fun v => negb (bool_decide (Account.ID v = id))) l in
  let l' := map (fun v => if bool_decide (Account.ID v = id)
                          then Account.mk (Account.ID v) phone balance else v) l in
  if flag then l' ++ [Account.mk id phone balance] else l'.

Definition merge_payment (l : list Payment.t) (id : string) (aid : Z) (amount : Money)
    (category : PaymentCategory) (status : PaymentStatus) : list Payment.t :=
  let flag := forallb (fun v => negb (bool_decide (Payment.ID v = id))) l in
  let l' := map (fun v => if bool_decide (Payment.ID v = id)
                          then Payment.mk (Payment.ID v) aid amount category status else v) l in
  if flag then l' ++ [Payment.mk id aid amount category status] else l'.

(** A favorite appended by [Import] has the empty name: the literal does not
    set [Name]. *)
Definition merge_favorite (l : list Favorite.t) (id : string) (aid : Z) (amount : Money)
    (category : PaymentCategory) : list Favorite.t :=
  let flag := forallb (fun v => negb (bool_decide (Favorite.ID v = id))) l in
  let l' := map (fun v => if bool_decide (Favorite.ID v = id)
                          then Favorite.mk (Favorite.ID v) aid (Favorite.Name v) amount category
                          else v) l in
  if flag then l' ++ [Favorite.mk id aid EmptyString amount category] else l'.

(** The writes that reach the first element satisfying [P] of a loop that
    panics at its first match: [f] is applied to that element, the others
    are as they were. *)
Fixpoint write_first {A : Type} (P : A -> bool) (f : A -> A) (l : list A) : list A :=
  match l with
  | [] => []
  | v :: l' => if P v then f v :: l' else v :: write_first P f l'
  end.

(** One line of [accounts.dump]: the collection after the line and the
    error, if any.  The three fields are read before the inner loop, so a
    line that fails leaves the accounts as they were. *)
Definition import_account_line (l : list Account.t) (v : string)
    : list Account.t * outcome unit :=
  let strArrAcount := Split v semicolon in
  match (f0 ← index strArrAcount 0; id ← ParseInt f0;
         f2 ← index strArrAcount 2; balance ← ParseInt f2;
         f1 ← index strArrAcount 1;
         Ok (id, f1, balance)) with
  | Ok (id, phone, balance) => (merge_account l id phone balance, Ok tt)
  | Err e => (l, Err e)
  | Panic => (l, Panic)
  end.

(** One line of [payments.dump].  The category and the status are read
    inside the inner loop, after the assignments to [AccountID] and
    [Amount], or in the literal of the new payment.  A line without them
    panics there: at the first payment with the identifier, which keeps the
    fields assigned before the index out of range, or in the literal, before
    anything is appended. *)
Definition import_payment_line (l : list Payment.t) (v : string)
    : list Payment.t * outcome unit :=
  let strArrAcount := Split v semicolon in
  match (id ← index strArrAcount 0;
         f1 ← index strArrAcount 1; aid ← ParseInt f1;
         f2 ← index strArrAcount 2; amount ← ParseInt f2;
         Ok (id, aid, amount)) with
  | Ok (id, aid, amount) =>
      match strArrAcount !! 3%nat, strArrAcount !! 4%nat with
      | Some category, Some status => (merge_payment l id aid amount category status, Ok tt)
      | Some category, None =>
          (write_first (fun v => bool_decide (Payment.ID v = id))
             (fun v => Payment.mk (Payment.ID v) aid amount category (Payment.Status v)) l,
           Panic)
      | None, _ =>
          (write_first (fun v => bool_decide (Payment.ID v = id))
             (fun v => Payment.mk (Payment.ID v) aid amount (Payment.Category v)
                         (Payment.Status v)) l,
           Panic)
      end
  | Err e => (l, Err e)
  | Panic => (l, Panic)
  end.

(** One line of [favorites.dump].  The category is read inside the inner
    loop, after the assignments to [AccountID] and [Amount], or in the
    literal of the new favorite; a line without it panics there. *)
Definition import_favorite_line (l : list Favorite.t) (v : string)
    : list Favorite.t * outcome unit :=
  let strArrAcount := Split v semicolon in
  match (id ← index strArrAcount 0;
         f1 ← index strArrAcount 1; aid ← ParseInt f1;
         f2 ← index strArrAcount 2; amount ← ParseInt f2;
         Ok (id, aid, amount)) with
  | Ok (id, aid, amount) =>
      match strArrAcount !! 3%nat with
      | Some category => (merge_favorite l id aid amount category, Ok tt)
      | None =>
          (write_first (fun v => bool_decide (Favorite.ID v = id))
             (fun v => Favorite.mk (Favorite.ID v) aid (Favorite.Name v) amount
                         (Favorite.Category v)) l,
           Panic)
      end
  | Err e => (l, Err e)
  | Panic => (l, Panic)
  end.

(** The loop over the lines of one dump: it stops at the first line that
    returns an error or panics, with the collection as that line left it. *)
Fixpoint import_lines {A : Type} (step : list A -> string -> list A * outcome unit)
    (l : list A) (lines : list string) : list A * outcome unit :=
  match lines with
  | [] => (l, Ok tt)
  | v :: rest =>
      match step l v with
      | (l', Ok _) => import_lines step l' rest
      | (l', r) => (l', r)
      end
  end.

(** One of the three blocks of [Import]: [os.Stat] tells whether the file
    exists, and a file that exists can be read. *)
Definition import_dump {A : Type} (step : list A -> string -> list A * outcome unit)
    (fs : FS) (path : string) (l : list A) : list A * outcome unit :=
  match files fs !! path with
  | None => (l, Ok tt)
  | Some content => import_lines step l (lines_of content)
  end.

Definition Import (s : Service) (dir : string) (fs : FS) : Service * outcome unit :=
  match import_dump import_account_line fs (accounts_dump dir) (accounts s) with
  | (la, Ok _) =>
      let s1 := set_accounts s la in
      match import_dump import_payment_line fs (payments_dump dir) (payments s1) with
      | (lp, Ok _) =>
          let s2 := set_payments s1 lp in
          match import_dump import_favorite_line fs (favorites_dump dir) (favorites s2) with
          | (lf, r) => (set_favorites s2 lf, r)
          end
      | (lp, r) => (set_payments s1 lp, r)
      end
  | (la, r) => (set_accounts s la, r)
  end.

(** ** Sequences of calls and the ledger of an account *)

Inductive Op : Type :=
| OpPay (accountID : Z) (amount : Money) (category : PaymentCategory) (uuid : string)
| OpDeposit (accountID : Z) (amount : Money)
| OpReject (paymentID : string).

(** What a call that returned a [nil] error did, as its caller knows it: the
    payment returned by [Pay], the arguments of [Deposit], the payment that
    [FindPaymentByID] gave for the argument of [Reject] before the call. *)
Inductive Event : Type :=
| Paid (p : Payment.t)
| Deposited (accountID : Z) (amount : Money)
| Rejected (p : Payment.t).

Definition exec (s : Service) (op : Op) : Service * option Event :=
  match op with
  | OpPay accountID amount category uuid =>
      match Pay s accountID amount category uuid with
      | (s', Ok (_, p)) => (s', Some (Paid p))
      | (s', _) => (s', None)
      end
  | OpDeposit accountID amount =>
      match Deposit s accountID amount with
      | (s', Ok _) => (s', Some (Deposited accountID amount))
      | (s', _) => (s', None)
      end
  | OpReject paymentID =>
      match Reject s paymentID, FindPaymentByID s paymentID with
      | (s', Ok _), Ok (_, p) => (s', Some (Rejected p))
      | (s', _), _ => (s', None)
      end
  end.

Fixpoint run (s : Service) (ops : list Op) : Service * list Event :=
  match ops with
  | [] => (s, [])
  | op :: ops' =>
      let '(s1, ev) := exec s op in
      let '(s2, evs) := run s1 ops' in
      (s2, match ev with Some e => e :: evs | None => evs end)
  end.

(** Sum of the deposits made to account [a]. *)
Fixpoint deposited (a : Z) (evs : list Event) : Z :=
  match evs with
  | [] => 0
  | Deposited a' m :: evs' => (if bool_decide (a' = a) then m else 0) + deposited a evs'
  | _ :: evs' => deposited a evs'
  end.

(** Sum of the amounts of the payments made from account [a]. *)
Fixpoint paid (a : Z) (evs : list Event) : Z :=
  match evs with
  | [] => 0
  | Paid p :: evs' =>
      (if bool_decide (Payment.AccountID p = a) then Payment.Amount p else 0) + paid a evs'
  | _ :: evs' => paid a evs'
  end.

(** Sum, over the [Reject] calls on payments of account [a], of the amount
    of the payment. *)
Fixpoint refunded (a : Z) (evs : list Event) : Z :=
  match evs with
  | [] => 0
  | Rejected p :: evs' =>
      (if bool_decide (Payment.AccountID p = a) then Payment.Amount p else 0) + refunded a evs'
  | _ :: evs' => refunded a evs'
  end.

(** The identifiers of the payments that some [Reject] call rejected. *)
Fixpoint rejected_ids (evs : list Event) : list string :=
  match evs with
  | [] => []
  | Rejected p :: evs' => Payment.ID p :: rejected_ids evs'
  | _ :: evs' => rejected_ids evs'
  end.

(** Sum of the amounts of the payments of account [a] that no [Reject] call
    rejected; [rej] are the rejected identifiers of the whole sequence. *)
Fixpoint paid_never_rejected (a : Z) (rej : list string) (evs : list Event) : Z :=
  match evs with
  | [] => 0
  | Paid p :: evs' =>
      (if bool_decide (Payment.AccountID p = a) && negb (bool_decide (Payment.ID p ∈ rej))
       then Payment.Amount p else 0) + paid_never_rejected a rej evs'
  | _ :: evs' => paid_never_rejected a rej evs'
  end.

(** The balance that the specification announces: initial balance, plus the
    deposits, minus the payments never rejected, plus the refunds. *)
Definition spec_balance (initial : Money) (a : Z) (evs : list Event) : Z :=
  initial + deposited a evs - paid_never_rejected a (rejected_ids evs) evs + refunded a evs.

(** The balance that the code keeps: every payment is debited, rejected or
    not. *)
Definition ledger_balance (initial : Money) (a : Z) (evs : list Event) : Z :=
  wrap64 (initial + deposited a evs - paid a evs + refunded a evs).

Definition balance_of (s : Service) (a : Z) : option Money :=
  match FindAccountByID s a with
  | Ok (_, acc) => Some (Account.Balance acc)
  | _ => None
  end.

(** Successive registrations. *)
Fixpoint register_all (s : Service) (phones : list Phone) : Service * list (outcome nat) :=
  match phones with
  | [] => (s, [])
  | phone :: rest =>
      let '(s1, r) := RegisterAccount s phone in
      let '(s2, rs) := register_all s1 rest in
      (s2, r :: rs)
  end.

Definition account_ids (s : Service) : list Z := map Account.ID (accounts s).

Definition is_Ok {A : Type} (o : outcome A) : bool :=
  match o with Ok _ => true | _ => false end.

(** ** Well-formed data *)

(** The text of a field does not contain the byte [c]. *)
Fixpoint free_of (c : ascii) (s : string) : bool :=
  match s with
  | EmptyString => true
  | String x s' => negb (bool_decide (x = c)) && free_of c s'
  end.

Definition account_int64 (a : Account.t) : Prop :=
  int64_range (Account.ID a) /\ int64_range (Account.Balance a).

(** An account that Format A can carry: no [;] and no [|] in the phone. *)
Definition account_plain_A (a : Account.t) : Prop :=
  account_int64 a /\
  free_of semicolon (Account.Phone a) = true /\ free_of pipe (Account.Phone a) = true.

(** Entities that Format B can carry: no [;] and no line feed in a text
    field. *)
Definition field_B (s : string) : Prop :=
  free_of semicolon s = true /\ free_of newline s = true.

Definition account_plain_B (a : Account.t) : Prop :=
  account_int64 a /\ field_B (Account.Phone a).

Definition payment_plain_B (p : Payment.t) : Prop :=
  int64_range (Payment.AccountID p) /\ int64_range (Payment.Amount p) /\
  field_B (Payment.ID p) /\ field_B (Payment.Category p) /\ field_B (Payment.Status p).

Definition favorite_plain_B (f : Favorite.t) : Prop :=
  int64_range (Favorite.AccountID f) /\ int64_range (Favorite.Amount f) /\
  field_B (Favorite.ID f) /\ field_B (Favorite.Category f).

(** After [Export], the dump at [path] is the one of the collection [l]:
    either [Export] wrote it, or the collection is empty and there is no
    such file. *)
Definition dump_fresh {A : Type} (fs : FS) (path : string) (l : list A) : Prop :=
  match l with
  | [] => files fs !! path = None
  | _ => denied fs path = false
  end.

(** A record of Format A that yields the account [a]. *)
Definition well_formed_record (r : string) (a : Account.t) : Prop :=
  exists f0 f2 rest,
    Split r semicolon = f0 :: Account.Phone a :: f2 :: rest /\
    Atoi f0 = Ok (Account.ID a) /\ Atoi f2 = Ok (Account.Balance a).

(** A record of Format A whose identifier or balance is not an integer:
    [strconv] rejects it with the error [e]. *)
Definition malformed_record (r : string) (e : error) : Prop :=
  exists f0 rest,
    Split r semicolon = f0 :: rest /\
    (Atoi f0 = Err e \/
     exists id f1 f2 rest', Atoi f0 = Ok id /\ rest = f1 :: f2 :: rest' /\ Atoi f2 = Err e).

(** ** Sample data and auxiliary definitions of the statements *)

Definition pay_a : Payment.t := Payment.mk "p" 1 100 "food" PaymentStatusInProgress.
Definition pay_b : Payment.t := Payment.mk "p" 1 250 "auto" PaymentStatusInProgress.

(** Two payments that share an identifier. *)
Definition twin_service : Service :=
  mkService 1 [Account.mk 1 "+992000000001" 50] [pay_a; pay_b] [].

(** One account with 100 on it. *)
Definition one_account : Service := mkService 1 [Account.mk 1 "+992000000001" 100] [] [].

(** Sum of a list of integers. *)
Definition zsum (l : list Z) : Z := foldr Z.add 0 l.

(** The slice read by the worker of index [j] in the loop. *)
Definition nth_chunk (l : list Payment.t) (K : nat) (j : nat) : list Payment.t :=
  take K (drop (j * K) l).

(** Payments of 100, 250, 50, 10 and 5. *)
Definition amount_payment (a : Z) : Payment.t :=
  Payment.mk "x" 1 a "c" PaymentStatusInProgress.

Definition five_payments : Service :=
  mkService 1 [Account.mk 1 "+992000000001" 0]
    (map amount_payment [100; 250; 50; 10; 5]) [].

(** What one event adds to the balance of account [a]. *)
Definition effect (a : Z) (ev : option Event) : Z :=
  match ev with
  | Some (Deposited a' m) => if bool_decide (a' = a) then m else 0
  | Some (Paid p) => if bool_decide (Payment.AccountID p = a) then - Payment.Amount p else 0
  | Some (Rejected p) => if bool_decide (Payment.AccountID p = a) then Payment.Amount p else 0
  | None => 0
  end.

(** The text of one account in both formats, without its terminator. *)
Definition account_text (a : Account.t) : string :=
  Itoa (Account.ID a) +:+ ";" +:+ Account.Phone a +:+ ";" +:+ Itoa (Account.Balance a).

(** An empty file system in which every path can be written. *)
Definition no_files : FS := mkFS ∅ (fun _ => false).

(** An account whose phone contains the field separator. *)
Definition odd_phone : Service := mkService 1 [Account.mk 1 "a;b" 5] [] [].

(** A Format A file whose second record has a text for identifier. *)
Definition broken_export : FS :=
  mkFS {[ "export.txt" := "1;a;5|x;b;7|3;c;9|" ]} (fun _ => false).

(** The accounts that successive registrations of new phones append when
    the counter is [next]. *)
Fixpoint registered (next : Z) (phones : list Phone) : list Account.t :=
  match phones with
  | [] => []
  | phone :: rest => Account.mk (next + 1) phone 0 :: registered (next + 1) rest
  end.

(** A Format A file with one account, of identifier 3. *)
Definition foreign_export : FS :=
  mkFS {[ "export.txt" := "3;+992000000009;70|" ]} (fun _ => false).

(** The text of one payment and of one favorite in Format B, without the
    line feed. *)
Definition payment_text (p : Payment.t) : string :=
  Payment.ID p +:+ ";" +:+ Itoa (Payment.AccountID p) +:+ ";"
    +:+ Itoa (Payment.Amount p) +:+ ";" +:+ Payment.Category p +:+ ";" +:+ Payment.Status p.

Definition favorite_text (f : Favorite.t) : string :=
  Favorite.ID f +:+ ";" +:+ Itoa (Favorite.AccountID f) +:+ ";"
    +:+ Itoa (Favorite.Amount f) +:+ ";" +:+ Favorite.Category f.

(** The fields of a matching entity after [Import] has overwritten them. *)
Definition overwrite_account (id : Z) (phone : Phone) (balance : Money) (v : Account.t)
    : Account.t :=
  if bool_decide (Account.ID v = id) then Account.mk (Account.ID v) phone balance else v.

Definition overwrite_payment (id : string) (aid : Z) (amount : Money)
    (category : PaymentCategory) (status : PaymentStatus) (v : Payment.t) : Payment.t :=
  if bool_decide (Payment.ID v = id)
  then Payment.mk (Payment.ID v) aid amount category status else v.

Definition overwrite_favorite (id : string) (aid : Z) (amount : Money)
    (category : PaymentCategory) (v : Favorite.t) : Favorite.t :=
  if bool_decide (Favorite.ID v = id)
  then Favorite.mk (Favorite.ID v) aid (Favorite.Name v) amount category else v.

(** A directory that holds a dump of payments written by somebody else. *)
Definition stale_dir : FS :=
  mkFS {[ "d/payments.dump" := "p1;1;10;food;INPROGRESS" +:+ nl ]} (fun _ => false).

(** An account whose phone contains a field separator and a line feed. *)
Definition multiline_phone : Service :=
  mkService 1 [Account.mk 1 ("x;0" +:+ nl +:+ "7;y") 5] [] [].

(** One account, one payment of it and one favorite. *)
Definition small_ledger : Service :=
  mkService 1 [Account.mk 1 "+992000000001" 100]
    [Payment.mk "u1" 1 40 "food" PaymentStatusInProgress]
    [Favorite.mk "f1" 1 "lunch" 40 "food"].

(** ** The remaining operations of the service *)

(** [Repeat]: the payment is looked up and [Pay] is called with its account,
    amount and category; the result of [Pay] is returned as it is.  [uuid]
    is the identifier generated inside [Pay]. *)
Definition Repeat (s : Service) (paymentID : string) (uuid : string)
    : Service * outcome (nat * Payment.t) :=
  match FindPaymentByID s paymentID with
  | Ok (_, pay) => Pay s (Payment.AccountID pay) (Payment.Amount pay) (Payment.Category pay) uuid
  | Err e => (s, Err e)
  | Panic => (s, Panic)
  end.

(** [uuid] is the string that [uuid.New().String()] returns in this call. *)
Definition FavoritePayment (s : Service) (paymentID : string) (name : string) (uuid : string)
    : Service * outcome (nat * Favorite.t) :=
  match FindPaymentByID s paymentID with
  | Ok (_, payment) =>
      let newFavorite :=
        Favorite.mk uuid (Payment.AccountID payment) name (Payment.Amount payment)
          (Payment.Category payment) in
      (set_favorites s (favorites s ++ [newFavorite]), Ok (length (favorites s), newFavorite))
  | Err e => (s, Err e)
  | Panic => (s, Panic)
  end.

Definition PayFromFavorite (s : Service) (favoriteID : string) (uuid : string)
    : Service * outcome (nat * Payment.t) :=
  match FindFavoriteByID s favoriteID with
  | Ok (_, favorite) =>
      Pay s (Favorite.AccountID favorite) (Favorite.Amount favorite)
        (Favorite.Category favorite) uuid
  | Err e => (s, Err e)
  | Panic => (s, Panic)
  end.

(** Any call of the service that does not touch files.  The strings named
    [uuid] are those that the generator returns in the call. *)
Inductive Call : Type :=
| CallRegisterAccount (phone : Phone)
| CallPay (accountID : Z) (amount : Money) (category : PaymentCategory) (uuid : string)
| CallDeposit (accountID : Z) (amount : Money)
| CallReject (paymentID : string)
| CallRepeat (paymentID : string) (uuid : string)
| CallFavoritePayment (paymentID : string) (name : string) (uuid : string)
| CallPayFromFavorite (favoriteID : string) (uuid : string).

(** The error of a call, [None] for [nil]. *)
Definition failure {A : Type} (o : outcome A) : option error :=
  match o with
  | Err e => Some e
  | _ => None
  end.

Definition call (s : Service) (c : Call) : Service * option error :=
  match c with
  | CallRegisterAccount phone => let r := RegisterAccount s phone in (r.1, failure r.2)
  | CallPay accountID amount category uuid =>
      let r := Pay s accountID amount category uuid in (r.1, failure r.2)
  | CallDeposit accountID amount => let r := Deposit s accountID amount in (r.1, failure r.2)
  | CallReject paymentID => let r := Reject s paymentID in (r.1, failure r.2)
  | CallRepeat paymentID uuid => let r := Repeat s paymentID uuid in (r.1, failure r.2)
  | CallFavoritePayment paymentID name uuid =>
      let r := FavoritePayment s paymentID name uuid in (r.1, failure r.2)
  | CallPayFromFavorite favoriteID uuid =>
      let r := PayFromFavorite s favoriteID uuid in (r.1, failure r.2)
  end.

(** The service after a sequence of calls. *)
Fixpoint calls (s : Service) (cs : list Call) : Service :=
  match cs with
  | [] => s
  | c :: cs' => calls (call s c).1 cs'
  end.

(** The identifier and the phone of an account. *)
Definition identity (a : Account.t) : Z * Phone := (Account.ID a, Account.Phone a).

(** What a payment is made of, its status apart. *)
Definition core (p : Payment.t) : string * Z * Money * PaymentCategory :=
  (Payment.ID p, Payment.AccountID p, Payment.Amount p, Payment.Category p).

(** The errors that a call can return. *)
Definition possible_errors (c : Call) : list error :=
  match c with
  | CallRegisterAccount _ => [ErrPhoneRegistered]
  | CallPay _ _ _ _ => [ErrAmountMustBePositive; ErrAccountNotFound; ErrNotEnoughtBalance]
  | CallDeposit _ _ => [ErrAmountMustBePositive; ErrAccountNotFound]
  | CallReject _ => [ErrPaymentNotFound; ErrAccountNotFound]
  | CallRepeat _ _ =>
      [ErrPaymentNotFound; ErrAmountMustBePositive; ErrAccountNotFound; ErrNotEnoughtBalance]
  | CallFavoritePayment _ _ _ => [ErrPaymentNotFound]
  | CallPayFromFavorite _ _ =>
      [ErrFavoriteNotFound; ErrAmountMustBePositive; ErrAccountNotFound; ErrNotEnoughtBalance]
  end.

(** How a call may change the service: the accounts keep their identifier
    and phone, or one account is appended by a registration; a payment keeps
    everything but its status, which can only become [PaymentStatusFail];
    payments and favorites are only appended. *)
Definition evolution (s s' : Service) : Prop :=
  ((map identity (accounts s') = map identity (accounts s) /\
    nextAccountID s' = nextAccountID s) \/
   (exists phone,
      (phone ∉ map Account.Phone (accounts s)) /\
      accounts s' = accounts s ++ [Account.mk (wrap64 (nextAccountID s + 1)) phone 0] /\
      nextAccountID s' = wrap64 (nextAccountID s + 1))) /\
  (forall k p, payments s !! k = Some p ->
     exists p', payments s' !! k = Some p' /\ core p' = core p /\
                (Payment.Status p' = Payment.Status p \/
                 Payment.Status p' = PaymentStatusFail)) /\
  (exists new, favorites s' = favorites s ++ new).

(** What every sequence of calls keeps: the accounts present stay in place
    with their identifier and phone, the payments present stay in place
    with everything but the status, which is kept or becomes
    [PaymentStatusFail], and the favorites present stay as they are. *)
Definition kept (s s' : Service) : Prop :=
  (exists new, map identity (accounts s') = map identity (accounts s) ++ new) /\
  (forall k p, payments s !! k = Some p ->
     exists p', payments s' !! k = Some p' /\ core p' = core p /\
                (Payment.Status p' = Payment.Status p \/
                 Payment.Status p' = PaymentStatusFail)) /\
  (exists new, favorites s' = favorites s ++ new).

(** The identifiers of the accounts are distinct and none is above the
    counter; the phones are distinct. *)
Definition unique_accounts (s : Service) : Prop :=
  NoDup (account_ids s) /\
  NoDup (map Account.Phone (accounts s)) /\
  Forall (fun a => Account.ID a <= nextAccountID s) (accounts s).


(** Two favorites that share an identifier. *)
Definition twin_favorites : Service :=
  mkService 1 [Account.mk 1 "+992000000001" 50] []
    [Favorite.mk "f" 1 "first" 10 "food"; Favorite.mk "f" 1 "second" 20 "auto"].

(** A Format A file with a record that is not terminated. *)
Definition unterminated_export : FS :=
  mkFS {[ "export.txt" := "1;a;5|2;b" ]} (fun p => bool_decide (p = "/export.txt")).

(** A favorite as [Import] appends it: the name is not in the dump. *)
Definition forget_name (f : Favorite.t) : Favorite.t :=
  Favorite.mk (Favorite.ID f) (Favorite.AccountID f) EmptyString (Favorite.Amount f)
    (Favorite.Category f).

(** A directory whose dump of accounts has a second line that is not
    well formed. *)
Definition broken_dir : FS :=
  mkFS {[ "d/accounts.dump" := "1;new;5" +:+ nl +:+ "x;b;7" +:+ nl +:+ "9;c;9" +:+ nl;
          "d/payments.dump" := "p1;1;10;food;INPROGRESS" +:+ nl ]} (fun _ => false).

(** ** Merging records, in the words of the specification *)

(** One record merged into a collection: when entities have its identifier
    their other fields are overwritten in place, otherwise the record is
    appended (a favorite with an empty name, the dump having none). *)
Definition merge_one_account (l : list Account.t) (a : Account.t) : list Account.t :=
  if decide (Account.ID a ∈ map Account.ID l)
  then map (overwrite_account (Account.ID a) (Account.Phone a) (Account.Balance a)) l
  else l ++ [a].

Definition merge_one_payment (l : list Payment.t) (p : Payment.t) : list Payment.t :=
  if decide (Payment.ID p ∈ map Payment.ID l)
  then map (overwrite_payment (Payment.ID p) (Payment.AccountID p) (Payment.Amount p)
              (Payment.Category p) (Payment.Status p)) l
  else l ++ [p].

Definition merge_one_favorite (l : list Favorite.t) (f : Favorite.t) : list Favorite.t :=
  if decide (Favorite.ID f ∈ map Favorite.ID l)
  then map (overwrite_favorite (Favorite.ID f) (Favorite.AccountID f) (Favorite.Amount f)
              (Favorite.Category f)) l
  else l ++ [forget_name f].

(** The records of a dump merged one after the other, first line first. *)
Definition merged_accounts (l recs : list Account.t) : list Account.t :=
  foldl merge_one_account l recs.
Definition merged_payments (l recs : list Payment.t) : list Payment.t :=
  foldl merge_one_payment l recs.
Definition merged_favorites (l recs : list Favorite.t) : list Favorite.t :=
  foldl merge_one_favorite l recs.

(** A directory with a dump of two accounts and nothing else. *)
Definition accounts_dir : FS :=
  mkFS {[ "d/accounts.dump" := "1;new;5" +:+ nl +:+ "7;y;9" +:+ nl ]} (fun _ => false).



(** * Properties *)

(** Closes a goal about the bounds of [int64] by linear arithmetic. *)
Ltac int64_arith :=
  unfold int64_range, int64_min, int64_max, uint64_max in *; simpl; lia.

(** ** Wrap-around arithmetic *)

Lemma wrap64_id (z : Z) : int64_range z -> wrap64 z = z.
Proof.
  unfold int64_range, int64_min, int64_max, wrap64. intros Hz.
  rewrite Z.mod_small; lia.
Qed.

Lemma wrap64_in_range (z : Z) : int64_range (wrap64 z).
Proof.
  unfold int64_range, int64_min, int64_max, wrap64.
  pose proof (Z.mod_pos_bound (z + 2 ^ 63) (2 ^ 64)). lia.
Qed.

Lemma wrap64_add_l (a b : Z) : wrap64 (wrap64 a + b) = wrap64 (a + b).
Proof.
  unfold wrap64.
  replace ((a + 2 ^ 63) mod 2 ^ 64 - 2 ^ 63 + b + 2 ^ 63)
    with ((a + 2 ^ 63) mod 2 ^ 64 + b) by lia.
  rewrite Zplus_mod_idemp_l. do 2 f_equal. lia.
Qed.

Lemma wrap64_add_r (a b : Z) : wrap64 (a + wrap64 b) = wrap64 (a + b).
Proof. rewrite (Z.add_comm a), wrap64_add_l. f_equal. lia. Qed.

(** ** Looking accounts and payments up *)

Lemma lookup_account_Some (l : list Account.t) (a : Z) (i : nat) (acc : Account.t) :
  lookup_account l a = Some (i, acc) ->
  l !! i = Some acc /\ Account.ID acc = a.
Proof.
  unfold lookup_account. intros H. apply list_find_Some in H. tauto.
Qed.

Lemma lookup_account_None (l : list Account.t) (a : Z) :
  lookup_account l a = None <-> (forall acc, acc ∈ l -> Account.ID acc <> a).
Proof.
  unfold lookup_account. rewrite list_find_None, Forall_forall. tauto.
Qed.

(** Writing at position [k] an account with the identifier of the one that
    was there does not move what the lookup loop finds. *)
Lemma lookup_account_insert (l : list Account.t) (k : nat) (x y : Account.t) (a : Z) :
  l !! k = Some y -> Account.ID x = Account.ID y ->
  lookup_account (<[k := x]> l) a =
  (fun r => (r.1, if decide (r.1 = k) then x else r.2)) <$> lookup_account l a.
Proof.
  unfold lookup_account. revert k.
  induction l as [|z l IH]; intros k Hk Hid; [discriminate|].
  destruct k as [|k]; simpl in *.
  - injection Hk as ->. rewrite Hid.
    destruct (decide (Account.ID y = a)); [reflexivity|].
    destruct (list_find _ l) as [[j w]|]; reflexivity.
  - destruct (decide (Account.ID z = a)); [reflexivity|].
    rewrite (IH k Hk Hid).
    destruct (list_find _ l) as [[j w]|]; simpl; [|reflexivity].
    destruct (decide (j = k)), (decide (S j = S k)); try reflexivity; lia.
Qed.

Lemma scan_last_app {A : Type} (P : A -> bool) (l1 l2 : list A) (i : nat) found :
  scan_last P (l1 ++ l2) i found = scan_last P l2 (i + length l1) (scan_last P l1 i found).
Proof.
  revert i found. induction l1 as [|x l1 IH]; intros i found; simpl.
  - f_equal. lia.
  - rewrite IH. f_equal. lia.
Qed.

(** What the loop without [break] leaves in [found]: the last match, if
    there is one. *)
Lemma scan_last_spec {A : Type} (P : A -> bool) (l : list A) (i : nat) found :
  (Forall (fun x => P x = false) l /\ scan_last P l i found = found) \/
  (exists k x, l !! k = Some x /\ P x = true /\
     (forall j y, l !! j = Some y -> P y = true -> (j <= k)%nat) /\
     scan_last P l i found = Some ((i + k)%nat, x)).
Proof.
  revert i found. induction l as [|x l IH]; intros i found; simpl.
  - left. split; [constructor | reflexivity].
  - destruct (IH (S i) (if P x then Some (i, x) else found))
      as [[Hall Heq] | (k & y & Hk & HP & Hlast & Heq)].
    + destruct (P x) eqn:HPx.
      * right. exists 0%nat, x. split_and!; [reflexivity | assumption | | ].
        -- intros [|j] w Hj Hw; [lia|]. simpl in Hj.
           apply (Forall_lookup_1 _ _ _ _ Hall) in Hj. congruence.
        -- rewrite Heq. f_equal. f_equal. lia.
      * left. split; [constructor; assumption | assumption].
    + right. exists (S k), y. split_and!; [assumption | assumption | | ].
      * intros [|j] w Hj Hw; [lia|]. simpl in Hj. specialize (Hlast j w Hj Hw). lia.
      * rewrite Heq. f_equal. f_equal. lia.
Qed.

Lemma FindPaymentByID_Ok (s : Service) (paymentID : string) (k : nat) (p : Payment.t) :
  FindPaymentByID s paymentID = Ok (k, p) <->
  payments s !! k = Some p /\ Payment.ID p = paymentID /\
  (forall j q, payments s !! j = Some q -> Payment.ID q = paymentID -> (j <= k)%nat).
Proof.
  unfold FindPaymentByID.
  destruct (scan_last_spec (fun pay => bool_decide (Payment.ID pay = paymentID))
              (payments s) 0 None) as [[Hall ->] | (k' & x & Hk & HP & Hlast & ->)].
  - split; [discriminate|]. intros (Hk & Hid & _).
    apply (Forall_lookup_1 _ _ _ _ Hall) in Hk. simpl in Hk.
    apply bool_decide_eq_false in Hk. contradiction.
  - apply bool_decide_eq_true in HP. simpl. split.
    + intros [= <- <-]. split_and!; [assumption | assumption |].
      intros j q Hj Hq. apply (Hlast j q Hj). apply bool_decide_eq_true. assumption.
    + intros (Hk1 & Hid & Hlast1).
      assert (k = k') as ->.
      { apply Nat.le_antisymm.
        - apply (Hlast k p Hk1). apply bool_decide_eq_true. assumption.
        - apply (Hlast1 k' x Hk HP). }
      congruence.
Qed.

Lemma FindPaymentByID_Err (s : Service) (paymentID : string) (e : error) :
  FindPaymentByID s paymentID = Err e <->
  e = ErrPaymentNotFound /\ forall p, p ∈ payments s -> Payment.ID p <> paymentID.
Proof.
  unfold FindPaymentByID.
  destruct (scan_last_spec (fun pay => bool_decide (Payment.ID pay = paymentID))
              (payments s) 0 None) as [[Hall ->] | (k' & x & Hk & HP & Hlast & ->)].
  - split.
    + intros [= <-]. split; [reflexivity|]. intros p Hp.
      rewrite Forall_forall in Hall. specialize (Hall p Hp). simpl in Hall.
      apply bool_decide_eq_false in Hall. assumption.
    + intros [-> _]. reflexivity.
  - split; [discriminate|]. intros [_ Hno].
    apply bool_decide_eq_true in HP. exfalso.
    apply (Hno x); [|assumption]. eapply list_elem_of_lookup_2. eassumption.
Qed.

(** ** Queries *)

(** C9. [FindPaymentByID] fails with [ErrPaymentNotFound] exactly when no
    payment has the identifier; otherwise it returns a payment with the
    identifier, and exactly the one at the greatest position among the
    payments with the identifier, that is the one added last; it never
    panics. *)
Theorem FindPaymentByID_last_match (s : Service) (paymentID : string) :
  (FindPaymentByID s paymentID = Err ErrPaymentNotFound <->
   forall p, p ∈ payments s -> Payment.ID p <> paymentID) /\
  (forall k p,
     FindPaymentByID s paymentID = Ok (k, p) <->
     payments s !! k = Some p /\ Payment.ID p = paymentID /\
     (forall j q, payments s !! j = Some q -> Payment.ID q = paymentID -> (j <= k)%nat)) /\
  ((exists p, p ∈ payments s /\ Payment.ID p = paymentID) ->
   exists k p, FindPaymentByID s paymentID = Ok (k, p)).
Proof.
  split_and!.
  - rewrite FindPaymentByID_Err. tauto.
  - intros k p. apply FindPaymentByID_Ok.
  - intros (p & Hp & Hid).
    destruct (FindPaymentByID s paymentID) as [[k q]|e|] eqn:E.
    + eauto.
    + apply FindPaymentByID_Err in E as [_ Hno]. destruct (Hno p Hp Hid).
    + unfold FindPaymentByID in E. destruct (scan_last _ _ _ _); discriminate.
Qed.

Lemma FindPaymentByID_last_match_witness :
  FindPaymentByID twin_service "p" = Ok (1%nat, pay_b).
Proof.
  apply (proj1 (proj2 (FindPaymentByID_last_match twin_service "p"))).
  split_and!; [reflexivity | reflexivity |].
  intros [|[|j]] q Hj _; [lia | lia | discriminate Hj].
Defined.

(** ** Paying and depositing *)

Lemma FindAccountByID_Ok (s : Service) (a : Z) (i : nat) (acc : Account.t) :
  FindAccountByID s a = Ok (i, acc) <-> lookup_account (accounts s) a = Some (i, acc).
Proof.
  unfold FindAccountByID. destruct (lookup_account _ _) as [r|]; split; congruence.
Qed.



Lemma set_Balance_same (a : Account.t) : set_Balance a (Account.Balance a) = a.
Proof. destruct a. reflexivity. Qed.

Lemma set_accounts_same (s : Service) : set_accounts s (accounts s) = s.
Proof. destruct s. reflexivity. Qed.

Lemma FindAccountByID_Err (s : Service) (a : Z) (e : error) :
  FindAccountByID s a = Err e -> e = ErrAccountNotFound.
Proof.
  unfold FindAccountByID. destruct (lookup_account _ _); congruence.
Qed.

Lemma FindAccountByID_no_panic (s : Service) (a : Z) : FindAccountByID s a <> Panic.
Proof.
  unfold FindAccountByID. destruct (lookup_account _ _); congruence.
Qed.

(** C7. Whatever the accounts are, [Pay] with an amount that is negative or
    zero fails with [ErrAmountMustBePositive]; [Deposit] fails with that
    error exactly when the amount is negative; a deposit of zero on an
    existing account succeeds and changes nothing, the balance included. *)
Theorem Pay_Deposit_asymmetry (s : Service) (accountID : Z) (amount : Money) :
  (forall category uuid,
     amount <= 0 -> Pay s accountID amount category uuid = (s, Err ErrAmountMustBePositive)) /\
  (amount < 0 -> Deposit s accountID amount = (s, Err ErrAmountMustBePositive)) /\
  (snd (Deposit s accountID amount) = Err ErrAmountMustBePositive -> amount < 0) /\
  (forall i account,
     FindAccountByID s accountID = Ok (i, account) -> int64_range (Account.Balance account) ->
     Deposit s accountID 0 = (s, Ok tt) /\
     balance_of (fst (Deposit s accountID 0)) accountID = Some (Account.Balance account)).
Proof.
  split_and!.
  - intros category uuid Ha. unfold Pay. destruct (Z.leb_spec amount 0); [reflexivity | lia].
  - intros Ha. unfold Deposit. destruct (Z.ltb_spec amount 0); [reflexivity | lia].
  - unfold Deposit. destruct (Z.ltb_spec amount 0); [intros _; assumption|].
    destruct (FindAccountByID s accountID) as [[i account]|e|] eqn:E; simpl.
    + discriminate.
    + apply FindAccountByID_Err in E. subst e. discriminate.
    + discriminate.
  - intros i account Hfind Hrange.
    assert (Deposit s accountID 0 = (s, Ok tt)) as Hdep.
    { unfold Deposit. simpl. rewrite Hfind. rewrite Z.add_0_r, wrap64_id by assumption.
      rewrite set_Balance_same. apply FindAccountByID_Ok, lookup_account_Some in Hfind.
      rewrite list_insert_id by tauto. rewrite set_accounts_same. reflexivity. }
    split; [assumption|]. rewrite Hdep. unfold balance_of. simpl. rewrite Hfind. reflexivity.
Qed.

Lemma Pay_Deposit_asymmetry_witness :
  Pay one_account 1 0 "food" "u1" = (one_account, Err ErrAmountMustBePositive) /\
  Deposit one_account 1 (-1) = (one_account, Err ErrAmountMustBePositive) /\
  Deposit one_account 1 0 = (one_account, Ok tt) /\
  balance_of (fst (Deposit one_account 1 0)) 1 = Some 100.
Proof.
  split_and!.
  - apply (proj1 (Pay_Deposit_asymmetry one_account 1 0)). lia.
  - apply (proj1 (proj2 (Pay_Deposit_asymmetry one_account 1 (-1)))). lia.
  - apply (proj2 (proj2 (proj2 (Pay_Deposit_asymmetry one_account 1 0)))
             0%nat (Account.mk 1 "+992000000001" 100)).
    + reflexivity.
    + int64_arith.
  - apply (proj2 (proj2 (proj2 (Pay_Deposit_asymmetry one_account 1 0)))
             0%nat (Account.mk 1 "+992000000001" 100)).
    + reflexivity.
    + int64_arith.
Defined.

(** ** Registration *)

Lemma phone_registered_iff (l : list Account.t) (phone : Phone) :
  existsb (has_phone phone) l = true <-> exists acc, acc ∈ l /\ Account.Phone acc = phone.
Proof.
  rewrite existsb_exists. unfold has_phone. split.
  - intros (acc & Hin & Hp). exists acc. rewrite list_elem_of_In.
    apply bool_decide_eq_true in Hp. tauto.
  - intros (acc & Hin & Hp). exists acc. rewrite <- list_elem_of_In.
    split; [assumption|]. apply bool_decide_eq_true. assumption.
Qed.

(** C8. After any call of [RegisterAccount] with a phone, registering the
    phone again fails with [ErrPhoneRegistered] and leaves the service, so
    also the number of accounts, as it was; so does any registration of a
    phone that an account holds.  A successful call appends one account with
    the phone, balance 0 and the incremented counter as identifier, returns
    it, and succeeds whenever no account holds the phone. *)
Theorem RegisterAccount_spec (s : Service) (phone : Phone) :
  (forall s1 r,
     RegisterAccount s phone = (s1, r) ->
     RegisterAccount s1 phone = (s1, Err ErrPhoneRegistered) /\
     length (accounts (fst (RegisterAccount s1 phone))) = length (accounts s1)) /\
  (forall acc, acc ∈ accounts s -> Account.Phone acc = phone ->
     RegisterAccount s phone = (s, Err ErrPhoneRegistered)) /\
  (forall s1 i,
     RegisterAccount s phone = (s1, Ok i) ->
     let account := Account.mk (wrap64 (nextAccountID s + 1)) phone 0 in
     accounts s1 = accounts s ++ [account] /\
     accounts s1 !! i = Some account /\
     nextAccountID s1 = Account.ID account /\
     payments s1 = payments s /\ favorites s1 = favorites s /\
     (int64_range (nextAccountID s) -> nextAccountID s < int64_max ->
      Account.ID account = nextAccountID s + 1)) /\
  ((forall acc, acc ∈ accounts s -> Account.Phone acc <> phone) ->
   exists s1 i, RegisterAccount s phone = (s1, Ok i)).
Proof.
  assert (forall s0, (exists acc, acc ∈ accounts s0 /\ Account.Phone acc = phone) ->
            RegisterAccount s0 phone = (s0, Err ErrPhoneRegistered)) as Htaken.
  { intros s0 H. apply phone_registered_iff in H. unfold RegisterAccount. rewrite H.
    reflexivity. }
  split_and!.
  - intros s1 r Hreg.
    assert (RegisterAccount s1 phone = (s1, Err ErrPhoneRegistered)) as H1.
    { apply Htaken. unfold RegisterAccount in Hreg.
      destruct (existsb (has_phone phone) (accounts s)) eqn:E.
      - injection Hreg as <- _. apply phone_registered_iff. assumption.
      - injection Hreg as <- _. simpl. exists (Account.mk (wrap64 (nextAccountID s + 1)) phone 0).
        split; [|reflexivity]. apply elem_of_app. right. apply list_elem_of_singleton.
        reflexivity. }
    split; [assumption|]. rewrite H1. reflexivity.
  - intros acc Hin Hp. apply Htaken. eauto.
  - intros s1 i Hreg account. unfold RegisterAccount in Hreg.
    destruct (existsb (has_phone phone) (accounts s)); [discriminate|].
    injection Hreg as <- <-. simpl. split_and!; try reflexivity.
    + rewrite lookup_app_r by lia. rewrite Nat.sub_diag. reflexivity.
    + intros Hr Hlt. apply wrap64_id.
      int64_arith.
  - intros Hfree. unfold RegisterAccount.
    destruct (existsb (has_phone phone) (accounts s)) eqn:E.
    + apply phone_registered_iff in E as (acc & Hin & Hp). destruct (Hfree acc Hin Hp).
    + eauto.
Qed.

Lemma RegisterAccount_spec_witness :
  RegisterAccount one_account "+992000000001" = (one_account, Err ErrPhoneRegistered) /\
  (exists s1 i, RegisterAccount one_account "+992000000002" = (s1, Ok i) /\
     accounts s1 !! i = Some (Account.mk 2 "+992000000002" 0) /\
     RegisterAccount s1 "+992000000002" = (s1, Err ErrPhoneRegistered)).
Proof.
  split.
  - apply (proj1 (proj2 (RegisterAccount_spec one_account "+992000000001"))
             (Account.mk 1 "+992000000001" 100)); [|reflexivity].
    apply list_elem_of_singleton. reflexivity.
  - destruct (proj2 (proj2 (proj2 (RegisterAccount_spec one_account "+992000000002"))))
      as (s1 & i & Hreg).
    + intros acc Hacc. apply list_elem_of_singleton in Hacc. subst acc. simpl. discriminate.
    + exists s1, i. split; [exact Hreg|]. split.
      * apply (proj1 (proj2 (proj2 (RegisterAccount_spec one_account "+992000000002")))
                 s1 i Hreg).
      * apply (proj1 (RegisterAccount_spec one_account "+992000000002") s1 (Ok i) Hreg).
Defined.

(** ** The parallel sum *)

Lemma foldl_wrap64 {A : Type} (f : A -> Z) (l : list A) (a : Z) :
  int64_range a ->
  foldl (fun acc x => wrap64 (acc + f x)) a l = wrap64 (a + zsum (map f l)).
Proof.
  revert a. induction l as [|x l IH]; intros a Ha; simpl.
  - rewrite Z.add_0_r, wrap64_id; [reflexivity | assumption].
  - rewrite IH by apply wrap64_in_range. rewrite wrap64_add_l. f_equal. unfold zsum. lia.
Qed.

Lemma int64_range_0 : int64_range 0.
Proof. int64_arith. Qed.

Lemma sum_amounts_zsum (l : list Payment.t) : sum_amounts l = zsum (map Payment.Amount l).
Proof.
  unfold sum_amounts, zsum. induction l as [|p l IH]; simpl; [reflexivity|].
  rewrite IH. reflexivity.
Qed.

Lemma worker_sum (chunk : list Payment.t) : worker chunk = wrap64 (sum_amounts chunk).
Proof.
  unfold worker. rewrite foldl_wrap64 by apply int64_range_0.
  rewrite sum_amounts_zsum. reflexivity.
Qed.

Lemma accumulate_sum (vals : list Z) : accumulate vals = wrap64 (zsum vals).
Proof.
  unfold accumulate. rewrite (foldl_wrap64 (fun v => v)) by apply int64_range_0.
  rewrite map_id. reflexivity.
Qed.

Lemma zsum_Permutation (l1 l2 : list Z) : Permutation l1 l2 -> zsum l1 = zsum l2.
Proof.
  induction 1 as [|x l l' _ IH|x y l|l l' l'' _ IH1 _ IH2]; simpl; lia.
Qed.

Lemma sum_amounts_app (l1 l2 : list Payment.t) :
  sum_amounts (l1 ++ l2) = sum_amounts l1 + sum_amounts l2.
Proof.
  unfold sum_amounts. induction l1 as [|p l1 IH]; simpl; [reflexivity|].
  rewrite IH. lia.
Qed.

Lemma wrap64_zsum_workers (cs : list (list Payment.t)) :
  wrap64 (zsum (map worker cs)) = wrap64 (sum_amounts (concat cs)).
Proof.
  induction cs as [|c cs IH]; simpl; [reflexivity|].
  rewrite sum_amounts_app, worker_sum, wrap64_add_l.
  rewrite <- wrap64_add_r, IH, wrap64_add_r. reflexivity.
Qed.

Lemma slice_Ok {A : Type} (l : list A) (lo hi : Z) :
  0 <= lo <= hi -> hi <= Z.of_nat (length l) ->
  slice l lo hi = Ok (take (Z.to_nat (hi - lo)) (drop (Z.to_nat lo) l)).
Proof.
  intros H1 H2. unfold slice.
  destruct (Z.leb_spec 0 lo); [|lia]. destruct (Z.leb_spec lo hi); [|lia].
  destruct (Z.leb_spec hi (Z.of_nat (length l))); [|lia]. reflexivity.
Qed.

Lemma loop_chunks_Ok (l : list Payment.t) (kol : Z) (n index : nat) :
  0 <= kol -> (Z.of_nat index + Z.of_nat n) * kol <= Z.of_nat (length l) ->
  loop_chunks l kol index n = Ok (map (nth_chunk l (Z.to_nat kol)) (seq index n)).
Proof.
  intros Hk. revert index. induction n as [|n IH]; intros index Hlen; simpl; [reflexivity|].
  rewrite slice_Ok by nia.
  rewrite IH by lia. unfold nth_chunk. do 3 f_equal.
  - f_equal. lia.
  - f_equal. lia.
Qed.

Lemma concat_nth_chunks (l : list Payment.t) (K n index : nat) :
  concat (map (nth_chunk l K) (seq index n)) = take (n * K) (drop (index * K) l).
Proof.
  revert index. induction n as [|n IH]; intros index; simpl; [reflexivity|].
  rewrite IH. unfold nth_chunk.
  replace (drop (S index * K) l) with (drop K (drop (index * K) l))
    by (rewrite drop_drop; f_equal; lia).
  apply take_take_drop.
Qed.

Lemma loop_count_eq (goroutines : Z) :
  0 <= goroutines <= int64_max -> loop_count goroutines = Z.to_nat (goroutines - 1).
Proof.
  intros H. unfold loop_count. rewrite wrap64_id; [reflexivity|].
  int64_arith.
Qed.

Lemma chunk_size_bounds (len : nat) (goroutines : Z) :
  0 <= goroutines ->
  0 <= chunk_size len goroutines /\
  (goroutines - 1) * chunk_size len goroutines <= Z.of_nat len /\
  (0 < goroutines -> chunk_size len goroutines = Z.of_nat len / goroutines).
Proof.
  intros Hg. unfold chunk_size. destruct (Z.eqb_spec goroutines 0) as [->|Hne].
  - split_and!; lia.
  - rewrite Z.quot_div_nonneg by lia.
    assert (0 <= Z.of_nat len / goroutines) as H0 by (apply Z.div_pos; lia).
    assert (goroutines * (Z.of_nat len / goroutines) <= Z.of_nat len) as H1
      by (apply Z.mul_div_le; lia).
    split_and!; [lia | nia | reflexivity].
Qed.

Lemma chunks_Ok (l : list Payment.t) (goroutines : Z) :
  0 <= goroutines <= int64_max ->
  let K := Z.to_nat (chunk_size (length l) goroutines) in
  let n := Z.to_nat (goroutines - 1) in
  chunks l goroutines = Ok (map (nth_chunk l K) (seq 0 n) ++ [drop (n * K) l]).
Proof.
  intros Hg K n. unfold chunks. rewrite loop_count_eq by assumption. fold n.
  destruct (chunk_size_bounds (length l) goroutines) as (Hk0 & Hk1 & _); [lia|].
  assert (0 <= Z.of_nat n * chunk_size (length l) goroutines <= Z.of_nat (length l)) as Hn.
  { destruct (decide (goroutines = 0)) as [->|Hne].
    - subst n. simpl. lia.
    - replace (Z.of_nat n) with (goroutines - 1) by (subst n; lia). nia. }
  rewrite loop_chunks_Ok by lia. fold K.
  rewrite slice_Ok by lia.
  do 3 f_equal. rewrite take_ge.
  - f_equal. subst n K. lia.
  - rewrite length_drop. lia.
Qed.

(** C3. For a worker count between 0 and the greatest [int],
    [SumPayments] does not panic and returns the sum of the amounts of all
    the payments (computed in [int64], so the sum itself when it fits),
    whatever the order in which the workers add their subtotals.  The
    slices of the workers are contiguous and cover the payments: one slice
    with everything for the count 0; otherwise as many slices as the count,
    all but the last of length [len / count], the last with the rest.  With
    the amounts 100, 250, 50, 10, 5 the counts 3, 1 and 0 give 415, and the
    count 3 cuts the payments into [100], [250] and [50, 10, 5]. *)
Theorem SumPayments_spec (s : Service) (goroutines : Z) :
  0 <= goroutines <= int64_max ->
  let total := wrap64 (sum_amounts (payments s)) in
  let len := Z.of_nat (length (payments s)) in
  SumPayments s goroutines = Ok total /\
  SumPayments_returns s goroutines total /\
  (forall v, SumPayments_returns s goroutines v -> v = total) /\
  (int64_range (sum_amounts (payments s)) -> total = sum_amounts (payments s)) /\
  (exists cs,
     chunks (payments s) goroutines = Ok cs /\
     concat cs = payments s /\
     (goroutines = 0 -> cs = [payments s]) /\
     (0 < goroutines ->
      Z.of_nat (length cs) = goroutines /\
      (forall j c, cs !! j = Some c -> Z.of_nat j < goroutines - 1 ->
         Z.of_nat (length c) = len / goroutines) /\
      (forall c, cs !! Z.to_nat (goroutines - 1) = Some c ->
         Z.of_nat (length c) = len - (goroutines - 1) * (len / goroutines)))) /\
  (chunks (payments five_payments) 3 =
     Ok [map amount_payment [100]; map amount_payment [250]; map amount_payment [50; 10; 5]] /\
   SumPayments five_payments 3 = Ok 415 /\
   SumPayments five_payments 1 = Ok 415 /\
   SumPayments five_payments 0 = Ok 415).
Proof.
  intros Hg total len.
  pose proof (chunks_Ok (payments s) goroutines Hg) as Hcs. simpl in Hcs.
  set (K := Z.to_nat (chunk_size (length (payments s)) goroutines)) in *.
  set (n := Z.to_nat (goroutines - 1)) in *.
  set (cs := map (nth_chunk (payments s) K) (seq 0 n) ++ [drop (n * K) (payments s)]) in *.
  assert (concat cs = payments s) as Hconcat.
  { subst cs. rewrite concat_app, concat_nth_chunks. simpl.
    rewrite app_nil_r. apply take_drop. }
  assert (forall vals, Permutation vals (map worker cs) -> accumulate vals = total) as Hperm.
  { intros vals Hp. rewrite accumulate_sum, (zsum_Permutation _ _ Hp), wrap64_zsum_workers.
    rewrite Hconcat. reflexivity. }
  destruct (chunk_size_bounds (length (payments s)) goroutines) as (Hk0 & Hk1 & Hk2); [lia|].
  split_and!.
  - unfold SumPayments. rewrite Hcs. f_equal. apply Hperm. reflexivity.
  - exists cs, (map worker cs). split_and!; [assumption | reflexivity |].
    symmetry. apply Hperm. reflexivity.
  - intros v (cs' & vals & Hcs' & Hp & ->). rewrite Hcs in Hcs'. injection Hcs' as <-.
    apply Hperm. assumption.
  - intros Hr. apply wrap64_id. assumption.
  - exists cs. split_and!; [assumption | assumption | |].
    + intros ->. subst cs n. simpl. reflexivity.
    + intros Hpos. specialize (Hk2 Hpos). split_and!.
      * subst cs. rewrite length_app, length_map, length_seq. simpl. lia.
      * intros j c Hj Hlt. subst cs.
        rewrite lookup_app_l in Hj by (rewrite length_map, length_seq; lia).
        rewrite list_lookup_fmap in Hj.
        rewrite lookup_seq_lt in Hj by lia. simpl in Hj. injection Hj as <-.
        unfold nth_chunk. rewrite length_take, length_drop. subst len. nia.
      * intros c Hc. subst cs. fold n in Hc.
        rewrite lookup_app_r in Hc by (rewrite length_map, length_seq; lia).
        rewrite length_map, length_seq, Nat.sub_diag in Hc. simpl in Hc. injection Hc as <-.
        rewrite length_drop. subst len. nia.
  - vm_compute; reflexivity.
  - vm_compute; reflexivity.
  - vm_compute; reflexivity.
  - vm_compute; reflexivity.
Qed.

Lemma SumPayments_spec_witness :
  0 <= 3 <= int64_max /\
  SumPayments five_payments 3 = Ok (wrap64 (sum_amounts (payments five_payments))) /\
  SumPayments_returns five_payments 3 415.
Proof.
  assert (0 <= 3 <= int64_max) as H by (unfold int64_max; lia).
  split; [exact H|].
  split.
  - apply (proj1 (SumPayments_spec five_payments 3 H)).
  - apply (proj1 (proj2 (SumPayments_spec five_payments 3 H))).
Defined.

(** ** The ledger of an account *)

(** Adding [d] to the balance of the first account [a'] adds [d] to what
    the lookup of [a] finds when [a = a'], and nothing otherwise. *)
Lemma credit_lookup (l : list Account.t) (a' a : Z) (i j : nat) (owner acc : Account.t) (d : Z) :
  lookup_account l a' = Some (i, owner) ->
  lookup_account l a = Some (j, acc) ->
  int64_range (Account.Balance acc) ->
  lookup_account (<[i := set_Balance owner (wrap64 (Account.Balance owner + d))]> l) a =
  Some (j, set_Balance acc (wrap64 (Account.Balance acc + if bool_decide (a' = a) then d else 0))).
Proof.
  intros Ho Ha Hr.
  destruct (lookup_account_Some _ _ _ _ Ho) as [Hi Hido].
  destruct (lookup_account_Some _ _ _ _ Ha) as [Hj Hida].
  rewrite (lookup_account_insert l i _ owner) by (assumption || reflexivity).
  rewrite Ha. simpl. do 2 f_equal.
  destruct (decide (j = i)) as [->|Hne].
  - assert (owner = acc) as -> by congruence.
    rewrite bool_decide_eq_true_2 by congruence. reflexivity.
  - rewrite bool_decide_eq_false_2.
    + rewrite Z.add_0_r, wrap64_id by assumption. symmetry. apply set_Balance_same.
    + intros ->. rewrite Ha in Ho. congruence.
Qed.

Lemma exec_balance (s : Service) (op : Op) (a : Z) (j : nat) (acc : Account.t) :
  FindAccountByID s a = Ok (j, acc) -> int64_range (Account.Balance acc) ->
  FindAccountByID (exec s op).1 a =
  Ok (j, set_Balance acc (wrap64 (Account.Balance acc + effect a (exec s op).2))).
Proof.
  intros Hfind Hr.
  assert (FindAccountByID s a = Ok (j, set_Balance acc (wrap64 (Account.Balance acc + 0))))
    as Hsame.
  { rewrite Z.add_0_r, wrap64_id, set_Balance_same by assumption. assumption. }
  apply FindAccountByID_Ok in Hfind.
  destruct op as [a' m c u | a' m | pid]; simpl.
  - unfold Pay. destruct (m <=? 0); [exact Hsame|].
    destruct (lookup_account (accounts s) a') as [[i owner]|] eqn:Ho; [|exact Hsame].
    destruct (Account.Balance owner <? m); [exact Hsame|]. simpl.
    apply FindAccountByID_Ok. simpl.
    replace (Account.Balance owner - m) with (Account.Balance owner + - m) by lia.
    apply credit_lookup; assumption.
  - unfold Deposit. destruct (m <? 0); [exact Hsame|].
    destruct (FindAccountByID s a') as [[i owner]|e|] eqn:Ho; [|exact Hsame..]. simpl.
    apply FindAccountByID_Ok in Ho. apply FindAccountByID_Ok. simpl.
    apply credit_lookup; assumption.
  - unfold Reject.
    destruct (FindPaymentByID s pid) as [[k pay]|e|]; [|exact Hsame..].
    destruct (FindAccountByID s (Payment.AccountID pay)) as [[i owner]|e|] eqn:Ho;
      [|exact Hsame..]. simpl.
    apply FindAccountByID_Ok in Ho. apply FindAccountByID_Ok. simpl.
    apply credit_lookup; assumption.
Qed.

Lemma ledger_cons (a : Z) (ev : option Event) (evs : list Event) :
  deposited a (match ev with Some e => e :: evs | None => evs end)
  - paid a (match ev with Some e => e :: evs | None => evs end)
  + refunded a (match ev with Some e => e :: evs | None => evs end)
  = effect a ev + (deposited a evs - paid a evs + refunded a evs).
Proof.
  destruct ev as [[p | a' m | p]|]; simpl; try lia.
  all: destruct (bool_decide _); lia.
Qed.

Lemma run_balance (ops : list Op) (s : Service) (a : Z) (j : nat) (acc : Account.t) :
  FindAccountByID s a = Ok (j, acc) -> int64_range (Account.Balance acc) ->
  FindAccountByID (run s ops).1 a =
  Ok (j, set_Balance acc (ledger_balance (Account.Balance acc) a (run s ops).2)).
Proof.
  revert s acc. induction ops as [|op ops IH]; intros s acc Hfind Hr; simpl.
  - unfold ledger_balance. simpl.
    replace (Account.Balance acc + 0 - 0 + 0) with (Account.Balance acc) by lia.
    rewrite wrap64_id, set_Balance_same by assumption. assumption.
  - pose proof (exec_balance s op a j acc Hfind Hr) as Hstep.
    destruct (exec s op) as [s1 ev]. simpl in Hstep.
    specialize (IH s1 _ Hstep (wrap64_in_range _)).
    destruct (run s1 ops) as [s2 evs]. simpl in *.
    rewrite IH. unfold ledger_balance, set_Balance. simpl.
    do 3 f_equal. pose proof (ledger_cons a ev evs) as Hc.
    set (rest := deposited a evs - paid a evs + refunded a evs) in *.
    transitivity (wrap64 (wrap64 (Account.Balance acc + effect a ev) + rest)).
    { f_equal. subst rest. lia. }
    rewrite wrap64_add_l. f_equal. lia.
Qed.

Lemma Reject_Ok (s : Service) (paymentID : string) (k j : nat) (pay : Payment.t)
    (owner : Account.t) :
  FindPaymentByID s paymentID = Ok (k, pay) ->
  FindAccountByID s (Payment.AccountID pay) = Ok (j, owner) ->
  int64_range (Account.Balance owner) ->
  let s1 := mkService (nextAccountID s)
              (<[j := set_Balance owner (wrap64 (Account.Balance owner + Payment.Amount pay))]>
                 (accounts s))
              (<[k := set_Status pay PaymentStatusFail]> (payments s)) (favorites s) in
  Reject s paymentID = (s1, Ok tt) /\
  FindPaymentByID s1 paymentID = Ok (k, set_Status pay PaymentStatusFail) /\
  FindAccountByID s1 (Payment.AccountID pay) =
    Ok (j, set_Balance owner (wrap64 (Account.Balance owner + Payment.Amount pay))).
Proof.
  intros Hp Ha Hr s1. split_and!.
  - unfold Reject. rewrite Hp, Ha. reflexivity.
  - apply FindPaymentByID_Ok in Hp as (Hk & Hid & Hlast).
    apply FindPaymentByID_Ok. simpl. split_and!.
    + apply list_lookup_insert_eq. eapply lookup_lt_Some. eassumption.
    + assumption.
    + intros i q Hi Hq. apply list_lookup_insert_Some in Hi as [(-> & _ & _) | [_ Hi]].
      * lia.
      * eapply Hlast; eassumption.
  - apply FindAccountByID_Ok in Ha. apply FindAccountByID_Ok. simpl.
    rewrite (credit_lookup _ (Payment.AccountID pay) (Payment.AccountID pay) j j owner owner)
      by assumption.
    rewrite bool_decide_eq_true_2 by reflexivity. reflexivity.
Qed.

(** C1 (amended). For every sequence of [Pay], [Deposit] and [Reject] calls
    and every account of the service, the balance of the account at the end
    is, in [int64] arithmetic, the initial balance plus the deposits made to
    it, minus the amounts of all its successful payments, rejected or not,
    plus the amounts refunded to it by the successful [Reject] calls; it is
    that very number when the number fits [int64].  Each [Reject] whose
    payment and owning account are found sets the status of the payment to
    [PaymentStatusFail], leaves its other fields and the other payments as
    they were, and adds the amount of the payment to the balance of the
    owner, whatever the status was, so a second [Reject] of the same
    identifier succeeds too and the owner has received the amount twice. *)
Theorem ledger_of_account (s : Service) :
  (forall a i acc ops,
     FindAccountByID s a = Ok (i, acc) -> int64_range (Account.Balance acc) ->
     FindAccountByID (run s ops).1 a =
       Ok (i, Account.mk (Account.ID acc) (Account.Phone acc)
                (ledger_balance (Account.Balance acc) a (run s ops).2)) /\
     (int64_range (Account.Balance acc + deposited a (run s ops).2 - paid a (run s ops).2
                   + refunded a (run s ops).2) ->
      balance_of (run s ops).1 a =
        Some (Account.Balance acc + deposited a (run s ops).2 - paid a (run s ops).2
              + refunded a (run s ops).2))) /\
  (forall paymentID k pay j owner,
     FindPaymentByID s paymentID = Ok (k, pay) ->
     FindAccountByID s (Payment.AccountID pay) = Ok (j, owner) ->
     int64_range (Account.Balance owner) ->
     let failed := Payment.mk (Payment.ID pay) (Payment.AccountID pay) (Payment.Amount pay)
                     (Payment.Category pay) PaymentStatusFail in
     exists s1 s2,
       Reject s paymentID = (s1, Ok tt) /\
       payments s1 !! k = Some failed /\
       (forall k', k' <> k -> payments s1 !! k' = payments s !! k') /\
       FindAccountByID s1 (Payment.AccountID pay) =
         Ok (j, Account.mk (Account.ID owner) (Account.Phone owner)
                  (wrap64 (Account.Balance owner + Payment.Amount pay))) /\
       Reject s1 paymentID = (s2, Ok tt) /\
       payments s2 !! k = Some failed /\
       (forall k', k' <> k -> payments s2 !! k' = payments s !! k') /\
       FindAccountByID s2 (Payment.AccountID pay) =
         Ok (j, Account.mk (Account.ID owner) (Account.Phone owner)
                  (wrap64 (Account.Balance owner + 2 * Payment.Amount pay)))).
Proof.
  split.
  - intros a i acc ops Hfind Hr.
    pose proof (run_balance ops s a i acc Hfind Hr) as Hrun.
    split; [exact Hrun|]. intros Hfit. unfold balance_of. rewrite Hrun. simpl.
    unfold ledger_balance. rewrite wrap64_id by assumption. reflexivity.
  - intros paymentID k pay j owner Hp Ha Hr failed.
    destruct (Reject_Ok s paymentID k j pay owner Hp Ha Hr) as (H1 & Hp1 & Ha1).
    set (owner1 := set_Balance owner (wrap64 (Account.Balance owner + Payment.Amount pay))) in *.
    destruct (Reject_Ok _ paymentID k j (set_Status pay PaymentStatusFail) owner1 Hp1 Ha1
                (wrap64_in_range _)) as (H2 & Hp2 & Ha2).
    eexists _, _. split_and!.
    + exact H1.
    + apply FindPaymentByID_Ok in Hp1. apply Hp1.
    + intros k' Hk'. cbn [payments]. apply list_lookup_insert_ne. congruence.
    + exact Ha1.
    + exact H2.
    + apply FindPaymentByID_Ok in Hp2. apply Hp2.
    + intros k' Hk'. cbn [payments].
      rewrite !list_lookup_insert_ne by congruence. reflexivity.
    + refine (eq_trans Ha2 _). subst owner1. unfold set_Balance. simpl.
      rewrite wrap64_add_l. do 4 f_equal. lia.
Qed.

(** The balance announced for C1 as written: after a payment of 100 from a
    balance of 100 and its rejection the balance is 100, not
    [100 - 0 + 100]. *)
Lemma ledger_counterexample :
  let r := run one_account [OpPay 1 100 "food" "u1"; OpReject "u1"] in
  balance_of r.1 1 = Some 100 /\
  spec_balance 100 1 r.2 = 200 /\
  balance_of r.1 1 <> Some (spec_balance 100 1 r.2).
Proof.
  vm_compute. split_and!; [reflexivity | reflexivity | discriminate].
Qed.

Lemma ledger_of_account_witness :
  let ops := [OpDeposit 1 20; OpPay 1 100 "food" "u1"; OpReject "u1"; OpReject "u1"] in
  balance_of (run one_account ops).1 1 = Some 220 /\
  exists s1 s2,
    Reject twin_service "p" = (s1, Ok tt) /\
    payments s1 !! 1%nat = Some (Payment.mk "p" 1 250 "auto" PaymentStatusFail) /\
    payments s1 !! 0%nat = Some pay_a /\
    FindAccountByID s1 1 = Ok (0%nat, Account.mk 1 "+992000000001" 300) /\
    Reject s1 "p" = (s2, Ok tt) /\
    payments s2 !! 1%nat = Some (Payment.mk "p" 1 250 "auto" PaymentStatusFail) /\
    FindAccountByID s2 1 = Ok (0%nat, Account.mk 1 "+992000000001" 550).
Proof.
  assert (int64_range 100) as H100 by int64_arith.
  assert (int64_range 220) as H220 by int64_arith.
  assert (int64_range 50) as H50 by int64_arith.
  split.
  - apply (proj2 (proj1 (ledger_of_account one_account) 1 0%nat
                    (Account.mk 1 "+992000000001" 100)
                    [OpDeposit 1 20; OpPay 1 100 "food" "u1"; OpReject "u1"; OpReject "u1"]
                    eq_refl H100) H220).
  - destruct (proj2 (ledger_of_account twin_service) "p" 1%nat pay_b 0%nat
                (Account.mk 1 "+992000000001" 50) eq_refl eq_refl H50)
      as (s1 & s2 & R1 & P1 & O1 & F1 & R2 & P2 & _ & F2).
    exists s1, s2. split; [exact R1|]. split; [exact P1|].
    split; [exact (O1 0%nat ltac:(discriminate))|]. split; [exact F1|].
    split; [exact R2|]. split; [exact P2|]. exact F2.
Defined.
(** ** Splitting texts *)

Lemma append_assoc (a b c : string) : (a +:+ b) +:+ c = a +:+ (b +:+ c).
Proof.
  induction a as [|x a IH]; [reflexivity|].
  change (String x ((a +:+ b) +:+ c) = String x (a +:+ (b +:+ c))).
  rewrite IH. reflexivity.
Qed.

Lemma free_of_append (c : ascii) (a b : string) :
  free_of c (a +:+ b) = free_of c a && free_of c b.
Proof.
  induction a as [|x a IH]; simpl; [reflexivity|].
  rewrite IH. destruct (negb _); reflexivity.
Qed.

Lemma Split_nonempty (s : string) (sep : ascii) : exists h t, Split s sep = h :: t.
Proof.
  induction s as [|c s IH]; simpl; [eauto|].
  destruct (bool_decide (c = sep)); [eauto|].
  destruct IH as (h & t & ->). eauto.
Qed.

(** A text without the separator is its own single field. *)
Lemma Split_free (s : string) (sep : ascii) : free_of sep s = true -> Split s sep = [s].
Proof.
  induction s as [|c s IH]; simpl; [reflexivity|].
  intros H. apply andb_true_iff in H as [Hc Hs].
  apply negb_true_iff in Hc. rewrite Hc, (IH Hs). reflexivity.
Qed.

(** A field without the separator, followed by the separator. *)
Lemma Split_field (a b : string) (sep : ascii) :
  free_of sep a = true -> Split (a +:+ String sep b) sep = a :: Split b sep.
Proof.
  induction a as [|c a IH]; simpl.
  - intros _. rewrite bool_decide_eq_true_2 by reflexivity. reflexivity.
  - intros H. apply andb_true_iff in H as [Hc Ha].
    apply negb_true_iff in Hc. rewrite Hc, (IH Ha). reflexivity.
Qed.

Lemma drop_last_snoc {A : Type} (l : list A) (x : A) : drop_last (l ++ [x]) = l.
Proof.
  unfold drop_last. rewrite length_app. simpl.
  rewrite decide_True by lia.
  replace (length l + 1 - 1)%nat with (length l) by lia.
  apply take_app_length.
Qed.

(** ** Decimal numerals *)

Lemma digit_digit_char (d : Z) : 0 <= d <= 9 -> digit (digit_char d) = Some d.
Proof.
  intros H.
  assert (d = 0 \/ d = 1 \/ d = 2 \/ d = 3 \/ d = 4 \/ d = 5 \/ d = 6 \/ d = 7 \/ d = 8 \/ d = 9)
    as Hd by lia.
  repeat (destruct Hd as [-> | Hd]; [reflexivity|]). subst d. reflexivity.
Qed.

Lemma mod10_bounds (n : Z) : 0 <= n mod 10 <= 9.
Proof. pose proof (Z.mod_pos_bound n 10). lia. Qed.

(** Reading the digits written for [n] amounts to having read [n]. *)
Lemma parse_format_digits (fuel : nat) (n : Z) (acc : string) :
  0 <= n < 10 ^ Z.of_nat fuel -> n <= uint64_max ->
  parse_uint (format_digits fuel n acc) 0 = parse_uint acc n.
Proof.
  revert n acc. induction fuel as [|fuel IH]; intros n acc Hn Hmax.
  - simpl in *. assert (n = 0) as -> by lia. reflexivity.
  - assert (parse_uint (String (digit_char (n mod 10)) acc) (n / 10) = parse_uint acc n) as Hstep.
    { cbn [parse_uint]. rewrite digit_digit_char by apply mod10_bounds.
      pose proof (Z.div_mod n 10) as Hdm.
      replace (10 * (n / 10) + n mod 10) with n by lia.
      destruct (Z.ltb_spec uint64_max n); [lia | reflexivity]. }
    cbn [format_digits]. destruct (Z.ltb_spec n 10) as [Hlt|Hge].
    + rewrite <- Hstep. rewrite Z.div_small by lia. reflexivity.
    + rewrite IH.
      * exact Hstep.
      * rewrite Nat2Z.inj_succ, Z.pow_succ_r in Hn by lia.
        split; [apply Z.div_pos; lia|]. apply Z.div_lt_upper_bound; lia.
      * pose proof (Z.div_le_upper_bound n 10 n). nia.
Qed.

Lemma format_digits_head (fuel : nat) (n : Z) (acc : string) :
  exists d rest, 0 <= d <= 9 /\ format_digits (S fuel) n acc = String (digit_char d) rest.
Proof.
  revert n acc. induction fuel as [|fuel IH]; intros n acc.
  - exists (n mod 10), acc. split; [apply mod10_bounds|].
    cbn [format_digits]. destruct (n <? 10); reflexivity.
  - cbn [format_digits]. destruct (n <? 10).
    + exists (n mod 10), acc. split; [apply mod10_bounds | reflexivity].
    + apply IH.
Qed.

Lemma format_digits_free (c : ascii) (fuel : nat) (n : Z) (acc : string) :
  digit c = None -> free_of c (format_digits fuel n acc) = free_of c acc.
Proof.
  intros Hc. revert n acc. induction fuel as [|fuel IH]; intros n acc; [reflexivity|].
  assert (free_of c (String (digit_char (n mod 10)) acc) = free_of c acc) as Hstep.
  { cbn [free_of]. rewrite bool_decide_eq_false_2; [reflexivity|].
    intros <-. rewrite digit_digit_char in Hc by apply mod10_bounds. discriminate. }
  cbn [format_digits]. destruct (n <? 10); [exact Hstep|]. rewrite IH. exact Hstep.
Qed.

(** A numeral contains none of the separators. *)
Lemma Itoa_free (c : ascii) (z : Z) :
  digit c = None -> c <> "-"%char -> free_of c (Itoa z) = true.
Proof.
  intros Hc Hm. unfold Itoa. destruct (z <? 0).
  - cbn [free_of]. rewrite bool_decide_eq_false_2 by congruence.
    rewrite format_digits_free by assumption. reflexivity.
  - rewrite format_digits_free by assumption. reflexivity.
Qed.

Lemma pow10_20 : 2 ^ 63 < 10 ^ Z.of_nat 20.
Proof. reflexivity. Qed.

Lemma ParseInt_minus (c : ascii) (s : string) :
  ParseInt (String "-"%char (String c s)) =
  un ← parse_uint (String c s) 0; if 2 ^ 63 <? un then Err ErrRange else Ok (- un).
Proof. reflexivity. Qed.

Lemma ParseInt_unsigned (c : ascii) (s : string) :
  c <> "-"%char -> c <> "+"%char ->
  ParseInt (String c s) =
  un ← parse_uint (String c s) 0; if 2 ^ 63 <=? un then Err ErrRange else Ok un.
Proof.
  intros Hm Hp. unfold ParseInt.
  rewrite (bool_decide_eq_false_2 _ Hm), (bool_decide_eq_false_2 _ Hp). reflexivity.
Qed.

(** Reading back a printed [int64]. *)
Lemma ParseInt_Itoa (z : Z) : int64_range z -> ParseInt (Itoa z) = Ok z.
Proof.
  unfold int64_range, int64_min, int64_max. intros Hz.
  pose proof pow10_20 as Hp.
  unfold Itoa. destruct (Z.ltb_spec z 0) as [Hneg|Hpos].
  - destruct (format_digits_head 19 (- z) EmptyString) as (d & rest & Hd & Heq).
    assert (parse_uint (String (digit_char d) rest) 0 = Ok (- z)) as Hparse.
    { rewrite <- Heq. rewrite parse_format_digits by (unfold uint64_max; lia). reflexivity. }
    rewrite Heq, ParseInt_minus, Hparse. cbn [mbind outcome_bind].
    destruct (Z.ltb_spec (2 ^ 63) (- z)); [lia|]. f_equal. lia.
  - destruct (format_digits_head 19 z EmptyString) as (d & rest & Hd & Heq).
    assert (digit_char d <> "-"%char /\ digit_char d <> "+"%char) as [Hm Hpl].
    { split; intros E; pose proof (digit_digit_char d Hd) as Hdd; rewrite E in Hdd;
        discriminate. }
    assert (parse_uint (String (digit_char d) rest) 0 = Ok z) as Hparse.
    { rewrite <- Heq. rewrite parse_format_digits by (unfold uint64_max; lia). reflexivity. }
    rewrite Heq, ParseInt_unsigned, Hparse by assumption. cbn [mbind outcome_bind].
    destruct (Z.leb_spec (2 ^ 63) z); [lia|]. reflexivity.
Qed.

Lemma ParseInt_Err (s : string) (e : error) :
  ParseInt s = Err e -> e = ErrSyntax \/ e = ErrRange.
Proof.
  assert (forall t n, parse_uint t n = Err e -> e = ErrSyntax \/ e = ErrRange) as Hu.
  { induction t as [|c t IH]; intros n; simpl; [discriminate|].
    destruct (digit c); [|intros [= <-]; auto].
    destruct (uint64_max <? 10 * n + z); [intros [= <-]; auto | apply IH]. }
  unfold ParseInt. destruct s as [|c s]; [intros [= <-]; auto|].
  destruct (if bool_decide (c = "+"%char) || bool_decide (c = "-"%char) then s else String c s)
    as [|c' s'] eqn:Hb; [intros [= <-]; auto|].
  destruct (parse_uint (String c' s') 0) as [un|e'|] eqn:Hp; simpl.
  - repeat match goal with |- context [if ?b then _ else _] => destruct b end;
      intros [= <-]; auto.
  - intros [= <-]. eapply Hu. eassumption.
  - discriminate.
Qed.

(** ** Format A *)

Lemma digit_semicolon : digit semicolon = None. Proof. reflexivity. Qed.
Lemma digit_pipe : digit pipe = None. Proof. reflexivity. Qed.
Lemma digit_newline : digit newline = None. Proof. reflexivity. Qed.

Lemma append_char (c : ascii) (x : string) : String c EmptyString +:+ x = String c x.
Proof. reflexivity. Qed.

Lemma export_text_cons (a : Account.t) (l : list Account.t) :
  export_text (a :: l) = account_text a +:+ String pipe (export_text l).
Proof.
  unfold account_text, pipe. cbn [export_text]. rewrite !append_assoc, !append_char.
  reflexivity.
Qed.

Lemma account_text_free (c : ascii) (a : Account.t) :
  digit c = None -> c <> "-"%char -> c <> semicolon ->
  free_of c (Account.Phone a) = true -> free_of c (account_text a) = true.
Proof.
  intros Hd Hm Hs Hp. unfold account_text.
  rewrite !free_of_append, !Itoa_free, Hp by assumption.
  cbn [free_of]. rewrite bool_decide_eq_false_2 by (intros E; apply Hs; symmetry; exact E).
  reflexivity.
Qed.

Lemma Split_account_text (a : Account.t) :
  free_of semicolon (Account.Phone a) = true ->
  Split (account_text a) semicolon =
  [Itoa (Account.ID a); Account.Phone a; Itoa (Account.Balance a)].
Proof.
  intros Hp. unfold account_text, semicolon in *. rewrite !append_char.
  rewrite Split_field by (apply Itoa_free; [reflexivity | discriminate]).
  rewrite Split_field by assumption.
  rewrite Split_free by (apply Itoa_free; [reflexivity | discriminate]).
  reflexivity.
Qed.

Lemma records_of_export_text (l : list Account.t) :
  Forall account_plain_A l -> records_of (export_text l) = map account_text l.
Proof.
  intros Hl. unfold records_of.
  assert (Split (export_text l) pipe = map account_text l ++ [EmptyString]) as ->.
  { induction Hl as [|a l Ha Hl IH]; [reflexivity|].
    rewrite export_text_cons, Split_field, IH; [reflexivity|].
    destruct Ha as (_ & _ & Hp). apply account_text_free; try assumption; try discriminate.
    reflexivity. }
  apply drop_last_snoc.
Qed.

Lemma parse_record_account_text (a : Account.t) :
  account_plain_A a -> parse_record (account_text a) = Ok a.
Proof.
  intros ((Hid & Hbal) & Hs & _). unfold parse_record.
  rewrite Split_account_text by assumption. cbn [index lookup list_lookup mbind outcome_bind].
  unfold Atoi. rewrite !ParseInt_Itoa by assumption. cbn [mbind outcome_bind].
  destruct a. reflexivity.
Qed.

Lemma import_records_app (rs rest : list string) (new : list Account.t) (s : Service) :
  Forall2 (fun r a => parse_record r = Ok a) rs new ->
  import_records s (rs ++ rest) = import_records (set_accounts s (accounts s ++ new)) rest.
Proof.
  intros H. revert s. induction H as [|r a rs new Hr _ IH]; intros s.
  - simpl. rewrite app_nil_r, set_accounts_same. reflexivity.
  - cbn [app import_records]. rewrite Hr, IH. unfold set_accounts. simpl.
    rewrite <- app_assoc. reflexivity.
Qed.

Lemma import_records_prefix (rs : list string) (s : Service) :
  exists new,
    (import_records s rs).1 = set_accounts s (accounts s ++ new) /\
    ((import_records s rs).2 = Ok tt -> length new = length rs).
Proof.
  revert s. induction rs as [|r rs IH]; intros s.
  - exists []. simpl. rewrite app_nil_r, set_accounts_same. auto.
  - cbn [import_records]. destruct (parse_record r) as [a|e|].
    + destruct (IH (set_accounts s (accounts s ++ [a]))) as (new & H1 & H2).
      exists (a :: new). rewrite H1. unfold set_accounts. simpl.
      rewrite <- app_assoc. split; [reflexivity|]. intros H. rewrite (H2 H). reflexivity.
    + exists []. simpl. rewrite app_nil_r, set_accounts_same. split; [reflexivity | discriminate].
    + exists []. simpl. rewrite app_nil_r, set_accounts_same. split; [reflexivity | discriminate].
Qed.

(** C5 (amended). For every list of accounts whose phones contain neither
    [;] nor [|], [ExportToFile] followed by [ImportFromFile] of the file
    into the empty service gives the same accounts (identifier, phone,
    balance) in the same order; imported into any service, the accounts of
    the file are appended after those that the service holds, with no look
    at the identifiers, so importing into the exporting service duplicates
    its accounts.  Whatever the file, [ImportFromFile] only appends: the
    accounts held before stay in front, the counter, the payments and the
    favorites are untouched, and a successful import adds one account per
    record. *)
Theorem Format_A_round_trip (s : Service) (path : string) (fs fs' : FS) :
  Forall account_plain_A (accounts s) ->
  ExportToFile s path fs = (fs', Ok tt) ->
  ImportFromFile newService path fs' = (mkService 0 (accounts s) [] [], Ok tt) /\
  (forall s0,
     ImportFromFile s0 path fs' =
       (mkService (nextAccountID s0) (accounts s0 ++ accounts s) (payments s0) (favorites s0),
        Ok tt)) /\
  ImportFromFile s path fs' =
    (mkService (nextAccountID s) (accounts s ++ accounts s) (payments s) (favorites s), Ok tt) /\
  (forall s0 path0 fs0,
     exists new,
       (ImportFromFile s0 path0 fs0).1 =
         mkService (nextAccountID s0) (accounts s0 ++ new) (payments s0) (favorites s0) /\
       ((ImportFromFile s0 path0 fs0).2 = Ok tt ->
        exists data, files fs0 !! path0 = Some data /\ length new = length (records_of data))).
Proof.
  intros Hplain Hexp.
  assert (forall s0, ImportFromFile s0 path fs' =
                       (mkService (nextAccountID s0) (accounts s0 ++ accounts s)
                          (payments s0) (favorites s0), Ok tt)) as Himp.
  { intros s0. unfold ExportToFile in Hexp. destruct (denied fs path); [discriminate|].
    injection Hexp as <-. unfold ImportFromFile, write_file. cbn [files].
    rewrite lookup_insert_eq. rewrite records_of_export_text by assumption.
    rewrite <- (app_nil_r (map account_text (accounts s))).
    rewrite (import_records_app _ [] (accounts s)); [reflexivity|].
    apply Forall2_fmap_l, Forall_Forall2_diag.
    eapply Forall_impl; [exact Hplain|]. intros a Ha. apply parse_record_account_text, Ha. }
  split_and!.
  - apply (Himp newService).
  - exact Himp.
  - apply Himp.
  - intros s0 path0 fs0. unfold ImportFromFile.
    destruct (files fs0 !! path0) as [data|] eqn:E.
    + destruct (import_records_prefix (records_of data) s0) as (new & H1 & H2).
      exists new. split; [assumption|]. intros H. exists data. auto.
    + exists []. simpl. rewrite app_nil_r. destruct s0. split; [reflexivity | discriminate].
Qed.

(** C5 as written fails for a phone that contains the field separator:
    the exported text of the account (1, "a;b", 5) is rejected by the
    import, which returns a syntax error and no account. *)
Lemma Format_A_counterexample :
  exists fs',
    ExportToFile odd_phone "export.txt" no_files = (fs', Ok tt) /\
    ImportFromFile newService "export.txt" fs' = (newService, Err ErrSyntax) /\
    accounts (ImportFromFile newService "export.txt" fs').1 <> accounts odd_phone.
Proof.
  eexists. split; [reflexivity|].
  unfold ImportFromFile, write_file. cbn [files]. rewrite lookup_insert_eq.
  split; [reflexivity | discriminate].
Qed.

Lemma well_formed_parse (r : string) (a : Account.t) :
  well_formed_record r a -> parse_record r = Ok a.
Proof.
  intros (f0 & f2 & rest & Hs & H0 & H2). unfold parse_record. rewrite Hs.
  cbn [index lookup list_lookup mbind outcome_bind]. rewrite H0. cbn [mbind outcome_bind].
  rewrite H2. cbn [mbind outcome_bind]. destruct a. reflexivity.
Qed.

Lemma malformed_parse (r : string) (e : error) :
  malformed_record r e -> parse_record r = Err e.
Proof.
  intros (f0 & rest & Hs & [H0 | (id & f1 & f2 & rest' & H0 & -> & H2)]);
    unfold parse_record; rewrite Hs; cbn [index lookup list_lookup mbind outcome_bind];
    rewrite H0; cbn [mbind outcome_bind]; [reflexivity|].
  rewrite H2. reflexivity.
Qed.

(** A record with an integer identifier and fewer than three fields is
    neither: reading its balance field is an index out of range. *)
Lemma parse_record_short : parse_record "5;x" = Panic.
Proof. reflexivity. Qed.

(** C6. When the records before position [k] are well formed and the record
    at position [k] has an identifier or a balance that [strconv] rejects,
    [ImportFromFile] returns that parse error and the service keeps the [k]
    accounts of the records before, appended to those it had; its counter,
    payments and favorites are as they were. *)
Theorem ImportFromFile_not_atomic (s : Service) (path : string) (fs : FS) (data : string)
    (k : nat) (bad : string) (e : error) (new : list Account.t) :
  files fs !! path = Some data ->
  Forall2 well_formed_record (take k (records_of data)) new ->
  records_of data !! k = Some bad ->
  malformed_record bad e ->
  ImportFromFile s path fs =
    (mkService (nextAccountID s) (accounts s ++ new) (payments s) (favorites s), Err e) /\
  (e = ErrSyntax \/ e = ErrRange) /\
  length new = k.
Proof.
  intros Hdata Hgood Hk Hbad.
  pose proof (malformed_parse bad e Hbad) as Hperr.
  split_and!.
  - unfold ImportFromFile. rewrite Hdata.
    rewrite <- (take_drop_middle _ _ _ Hk).
    rewrite (import_records_app _ _ new).
    + cbn [import_records]. rewrite Hperr. reflexivity.
    + eapply Forall2_impl; [exact Hgood|]. intros r a. apply well_formed_parse.
  - destruct Hbad as (f0 & rest & _ & [H0 | (id & f1 & f2 & rest' & _ & _ & H2)]);
      eapply ParseInt_Err; eassumption.
  - apply Forall2_length in Hgood. rewrite <- Hgood, length_take.
    apply lookup_lt_Some in Hk. lia.
Qed.

Lemma ImportFromFile_not_atomic_witness :
  ImportFromFile one_account "export.txt" broken_export =
    (mkService 1 [Account.mk 1 "+992000000001" 100; Account.mk 1 "a" 5] [] [],
     Err ErrSyntax).
Proof.
  apply (ImportFromFile_not_atomic one_account "export.txt" broken_export
           "1;a;5|x;b;7|3;c;9|" 1 "x;b;7" ErrSyntax [Account.mk 1 "a" 5]).
  - reflexivity.
  - change (take 1 (records_of "1;a;5|x;b;7|3;c;9|")) with ["1;a;5"].
    constructor; [|constructor]. exists "1", "5", []. split_and!; reflexivity.
  - reflexivity.
  - exists "x", ["b"; "7"]. split; [reflexivity|]. left. reflexivity.
Defined.

Lemma Format_A_round_trip_witness :
  exists fs',
    ExportToFile one_account "export.txt" no_files = (fs', Ok tt) /\
    files fs' !! "export.txt" = Some "1;+992000000001;100|" /\
    ImportFromFile newService "export.txt" fs' =
      (mkService 0 [Account.mk 1 "+992000000001" 100] [] [], Ok tt) /\
    ImportFromFile one_account "export.txt" fs' =
      (mkService 1 [Account.mk 1 "+992000000001" 100; Account.mk 1 "+992000000001" 100] [] [],
       Ok tt).
Proof.
  assert (Forall account_plain_A (accounts one_account)) as Hplain.
  { repeat constructor; unfold int64_range, int64_min, int64_max; simpl; lia. }
  exists (write_file no_files "export.txt" (export_text (accounts one_account))).
  split; [reflexivity|]. split; [reflexivity|].
  pose proof (Format_A_round_trip one_account "export.txt" no_files _ Hplain eq_refl) as H.
  split; [apply H | apply H].
Defined.

(** ** The counter and the imports *)

Lemma import_records_counter (rs : list string) (s : Service) :
  nextAccountID (import_records s rs).1 = nextAccountID s.
Proof.
  revert s. induction rs as [|r rs IH]; intros s; [reflexivity|].
  cbn [import_records]. destruct (parse_record r); [|reflexivity..].
  rewrite IH. reflexivity.
Qed.

Lemma Import_counter (s : Service) (dir : string) (fs : FS) :
  nextAccountID (Import s dir fs).1 = nextAccountID s.
Proof.
  unfold Import.
  destruct (import_dump import_account_line fs (accounts_dump dir) (accounts s)) as [la [[]|e|]];
    [|reflexivity..].
  destruct (import_dump import_payment_line fs (payments_dump dir) _) as [lp [[]|e|]];
    [|reflexivity..].
  destruct (import_dump import_favorite_line fs (favorites_dump dir) _) as [lf r].
  reflexivity.
Qed.

Lemma registered_length (next : Z) (phones : list Phone) :
  length (registered next phones) = length phones.
Proof.
  revert next. induction phones as [|p ps IH]; intros next; simpl; [reflexivity|].
  rewrite IH. reflexivity.
Qed.

Lemma registered_last (next : Z) (phones : list Phone) (p : Phone) :
  registered next (phones ++ [p]) =
  registered next phones ++ [Account.mk (next + Z.of_nat (length phones) + 1) p 0].
Proof.
  revert next. induction phones as [|q ps IH]; intros next; simpl.
  - rewrite Z.add_0_r. reflexivity.
  - rewrite IH. do 4 f_equal. lia.
Qed.

Lemma registered_phone (next : Z) (phones : list Phone) (a : Account.t) :
  a ∈ registered next phones -> Account.Phone a ∈ phones.
Proof.
  revert next. induction phones as [|p ps IH]; intros next; simpl.
  - intros H. apply elem_of_nil in H. contradiction.
  - intros H. apply elem_of_cons in H as [-> | H].
    + apply elem_of_cons. left. reflexivity.
    + apply elem_of_cons. right. eapply IH. eassumption.
Qed.

(** Registering phones that are new and distinct: every call succeeds and
    takes the next value of the counter. *)
Lemma register_all_fresh (phones : list Phone) (s : Service) :
  NoDup phones ->
  (forall p a, p ∈ phones -> a ∈ accounts s -> Account.Phone a <> p) ->
  int64_range (nextAccountID s) ->
  nextAccountID s + Z.of_nat (length phones) <= int64_max ->
  register_all s phones =
  (mkService (nextAccountID s + Z.of_nat (length phones))
     (accounts s ++ registered (nextAccountID s) phones) (payments s) (favorites s),
   map Ok (seq (length (accounts s)) (length phones))).
Proof.
  revert s. induction phones as [|p ps IH]; intros s Hnd Hfresh Hr Hmax.
  - simpl. rewrite Z.add_0_r, app_nil_r. destruct s. reflexivity.
  - apply NoDup_cons in Hnd as [Hp Hnd].
    cbn [register_all]. unfold RegisterAccount.
    destruct (existsb (has_phone p) (accounts s)) eqn:E.
    { apply phone_registered_iff in E as (a & Ha & Hpa).
      exfalso. apply (Hfresh p a); [apply elem_of_cons; auto | assumption | assumption]. }
    assert (wrap64 (nextAccountID s + 1) = nextAccountID s + 1) as Hw.
    { apply wrap64_id. cbn [length] in Hmax.
      int64_arith. }
    rewrite Hw. rewrite IH.
    + cbn [nextAccountID accounts payments favorites length registered].
      rewrite length_app. cbn [length]. rewrite <- app_assoc. cbn [app map seq].
      f_equal; [f_equal; lia|]. f_equal. f_equal. f_equal. lia.
    + assumption.
    + intros q a Hq Ha. cbn [accounts] in Ha. apply elem_of_app in Ha as [Ha | Ha].
      * apply Hfresh; [apply elem_of_cons; auto | assumption].
      * apply list_elem_of_singleton in Ha. subst a. simpl. intros ->. contradiction.
    + cbn [nextAccountID]. cbn [length] in Hmax.
      int64_arith.
    + cbn [nextAccountID]. cbn [length] in Hmax. lia.
Qed.

(** C10. [ImportFromFile] and [Import] never change the counter of
    [RegisterAccount].  So when the service holds an account whose
    identifier is above the counter, as an import can add, registrations of
    new phones succeed one after the other until the counter reaches that
    identifier: the registration that reaches it returns a second account
    with the identifier, and the identifiers of the accounts are no longer
    distinct. *)
Theorem RegisterAccount_duplicate_ID (s : Service) :
  (forall path fs, nextAccountID (ImportFromFile s path fs).1 = nextAccountID s) /\
  (forall dir fs, nextAccountID (Import s dir fs).1 = nextAccountID s) /\
  (forall acc phones phone,
     acc ∈ accounts s ->
     int64_range (nextAccountID s) -> int64_range (Account.ID acc) ->
     nextAccountID s < Account.ID acc ->
     Z.of_nat (length (phones ++ [phone])) = Account.ID acc - nextAccountID s ->
     NoDup (phones ++ [phone]) ->
     (forall p a, p ∈ phones ++ [phone] -> a ∈ accounts s -> Account.Phone a <> p) ->
     let s1 := (register_all s phones).1 in
     Forall (fun r => is_Ok r = true) (register_all s phones).2 /\
     exists s2 i twin,
       RegisterAccount s1 phone = (s2, Ok i) /\
       accounts s2 !! i = Some twin /\
       Account.ID twin = Account.ID acc /\
       twin <> acc /\ acc ∈ accounts s2 /\
       ~ NoDup (account_ids s2)).
Proof.
  split_and!.
  - intros path fs. unfold ImportFromFile. destruct (files fs !! path); [|reflexivity].
    apply import_records_counter.
  - intros dir fs. apply Import_counter.
  - intros acc phones phone Hacc Hr Hra Hlt Hlen Hnd Hfresh s1.
    rewrite length_app in Hlen. cbn [length] in Hlen.
    apply NoDup_app in Hnd as (Hnd & Hdisj & _).
    assert (register_all s phones =
            (mkService (nextAccountID s + Z.of_nat (length phones))
               (accounts s ++ registered (nextAccountID s) phones) (payments s) (favorites s),
             map Ok (seq (length (accounts s)) (length phones)))) as Hall.
    { apply register_all_fresh; try assumption.
      - intros p a Hp. apply Hfresh. apply elem_of_app. auto.
      - unfold int64_range, int64_max in *. lia. }
    subst s1. rewrite Hall. cbn [fst snd]. split.
    { apply Forall_fmap, Forall_forall. intros. reflexivity. }
    set (s1 := mkService _ _ _ _).
    assert (existsb (has_phone phone) (accounts s1) = false) as Hnew.
    { destruct (existsb (has_phone phone) (accounts s1)) eqn:E; [|reflexivity].
      apply phone_registered_iff in E as (a & Ha & Hpa). exfalso.
      subst s1. cbn [accounts] in Ha. apply elem_of_app in Ha as [Ha | Ha].
      - apply (Hfresh phone a); [|assumption..]. apply elem_of_app. right.
        apply list_elem_of_singleton. reflexivity.
      - apply registered_phone in Ha. rewrite Hpa in Ha.
        apply (Hdisj phone Ha). apply list_elem_of_singleton. reflexivity. }
    assert (wrap64 (nextAccountID s1 + 1) = Account.ID acc) as Hid.
    { subst s1. cbn [nextAccountID]. rewrite wrap64_id; [lia|].
      int64_arith. }
    unfold RegisterAccount. rewrite Hnew, Hid.
    eexists _, _, (Account.mk (Account.ID acc) phone 0). split_and!.
    + reflexivity.
    + cbn [accounts]. rewrite lookup_app_r by lia. rewrite Nat.sub_diag. reflexivity.
    + reflexivity.
    + intros E. apply (Hfresh phone acc).
      * apply elem_of_app. right. apply list_elem_of_singleton. reflexivity.
      * assumption.
      * rewrite <- E. reflexivity.
    + cbn [accounts]. subst s1. cbn [accounts]. rewrite !elem_of_app. auto.
    + unfold account_ids. cbn [accounts]. subst s1. cbn [accounts].
      rewrite !map_app. cbn [map]. intros Hdup.
      apply NoDup_app in Hdup as (_ & Hd & _).
      apply (Hd (Account.ID acc)).
      * apply elem_of_app. left. apply list_elem_of_fmap. exists acc. auto.
      * apply list_elem_of_singleton. reflexivity.
Qed.

Lemma RegisterAccount_duplicate_ID_witness :
  let s := (ImportFromFile newService "export.txt" foreign_export).1 in
  nextAccountID s = 0 /\
  account_ids s = [3] /\
  exists s2 i,
    RegisterAccount (register_all s ["+1"; "+2"]).1 "+3" = (s2, Ok i) /\
    ~ NoDup (account_ids s2).
Proof.
  set (s := (ImportFromFile newService "export.txt" foreign_export).1).
  split; [apply (proj1 (RegisterAccount_duplicate_ID newService))|].
  split; [reflexivity|].
  destruct (proj2 (proj2 (RegisterAccount_duplicate_ID s))
              (Account.mk 3 "+992000000009" 70) ["+1"; "+2"] "+3")
    as (_ & s2 & i & twin & Hreg & _ & _ & _ & _ & Hdup).
  - apply list_elem_of_singleton. reflexivity.
  - change (nextAccountID s) with 0. int64_arith.
  - int64_arith.
  - change (nextAccountID s) with 0. simpl. lia.
  - reflexivity.
  - repeat constructor; rewrite ?elem_of_cons, ?elem_of_nil; intros H;
      repeat destruct H as [H | H]; try discriminate H; try contradiction.
  - intros p a Hp Ha. apply list_elem_of_singleton in Ha. subst a. simpl.
    intros <-. repeat (apply elem_of_cons in Hp as [Hp | Hp]; [discriminate Hp|]).
    apply elem_of_nil in Hp. contradiction.
  - exists s2, i. split; [exact Hreg | exact Hdup].
Defined.

(** ** Format B *)

(** The lines of a dump whose records contain no line feed. *)
Lemma Split_lines {A : Type} (text : A -> string) (dump : list A -> string) (l : list A) :
  dump [] = EmptyString ->
  (forall v l', dump (v :: l') = text v +:+ String newline (dump l')) ->
  Forall (fun v => free_of newline (text v) = true) l ->
  lines_of (dump l) = map text l.
Proof.
  intros Hnil Hcons Hl. unfold lines_of.
  assert (Split (dump l) newline = map text l ++ [EmptyString]) as ->.
  { induction Hl as [|v l Hv Hl IH]; [rewrite Hnil; reflexivity|].
    rewrite Hcons, Split_field, IH by assumption. reflexivity. }
  apply drop_last_snoc.
Qed.

Lemma dump_accounts_cons (v : Account.t) (l : list Account.t) :
  dump_accounts (v :: l) = account_text v +:+ String newline (dump_accounts l).
Proof.
  unfold account_text, nl. cbn [dump_accounts]. rewrite !append_assoc, !append_char.
  reflexivity.
Qed.

Lemma dump_payments_cons (v : Payment.t) (l : list Payment.t) :
  dump_payments (v :: l) = payment_text v +:+ String newline (dump_payments l).
Proof.
  unfold payment_text, nl. cbn [dump_payments]. rewrite !append_assoc, !append_char.
  reflexivity.
Qed.

Lemma dump_favorites_cons (v : Favorite.t) (l : list Favorite.t) :
  dump_favorites (v :: l) = favorite_text v +:+ String newline (dump_favorites l).
Proof.
  unfold favorite_text, nl. cbn [dump_favorites]. rewrite !append_assoc, !append_char.
  reflexivity.
Qed.

Lemma free_of_semicolon_text (c : ascii) :
  c <> semicolon -> free_of c (String semicolon EmptyString) = true.
Proof.
  intros H. cbn [free_of]. rewrite bool_decide_eq_false_2; [reflexivity|].
  intros E. apply H. symmetry. exact E.
Qed.

Lemma payment_text_free (p : Payment.t) :
  payment_plain_B p -> free_of newline (payment_text p) = true.
Proof.
  intros (_ & _ & [_ H1] & [_ H2] & [_ H3]). unfold payment_text.
  rewrite !free_of_append, H1, H2, H3, !Itoa_free by (reflexivity || discriminate).
  reflexivity.
Qed.

Lemma favorite_text_free (f : Favorite.t) :
  favorite_plain_B f -> free_of newline (favorite_text f) = true.
Proof.
  intros (_ & _ & [_ H1] & [_ H2]). unfold favorite_text.
  rewrite !free_of_append, H1, H2, !Itoa_free by (reflexivity || discriminate).
  reflexivity.
Qed.

Lemma Split_payment_text (p : Payment.t) :
  payment_plain_B p ->
  Split (payment_text p) semicolon =
  [Payment.ID p; Itoa (Payment.AccountID p); Itoa (Payment.Amount p);
   Payment.Category p; Payment.Status p].
Proof.
  intros (_ & _ & [H1 _] & [H2 _] & [H3 _]). unfold payment_text, semicolon in *.
  rewrite !append_char.
  rewrite Split_field by assumption.
  rewrite Split_field by (apply Itoa_free; [reflexivity | discriminate]).
  rewrite Split_field by (apply Itoa_free; [reflexivity | discriminate]).
  rewrite Split_field by assumption.
  rewrite Split_free by assumption. reflexivity.
Qed.

Lemma Split_favorite_text (f : Favorite.t) :
  favorite_plain_B f ->
  Split (favorite_text f) semicolon =
  [Favorite.ID f; Itoa (Favorite.AccountID f); Itoa (Favorite.Amount f); Favorite.Category f].
Proof.
  intros (_ & _ & [H1 _] & [H2 _]). unfold favorite_text, semicolon in *.
  rewrite !append_char.
  rewrite Split_field by assumption.
  rewrite Split_field by (apply Itoa_free; [reflexivity | discriminate]).
  rewrite Split_field by (apply Itoa_free; [reflexivity | discriminate]).
  rewrite Split_free by assumption. reflexivity.
Qed.

(** ** Merging one record *)

Lemma flag_spec {A K : Type} `{EqDecision K} (key : A -> K) (id : K) (l : list A) :
  forallb (fun v => negb (bool_decide (key v = id))) l = bool_decide (id ∉ map key l).
Proof.
  induction l as [|v l IH].
  - symmetry. apply bool_decide_eq_true_2. apply not_elem_of_nil.
  - cbn [forallb map]. rewrite IH. destruct (decide (key v = id)) as [E|E].
    + rewrite (bool_decide_eq_true_2 _ E). cbn [negb andb]. symmetry.
      apply bool_decide_eq_false_2. intros H. apply H. apply elem_of_cons. auto.
    + rewrite (bool_decide_eq_false_2 _ E). cbn [negb andb].
      apply bool_decide_ext. rewrite not_elem_of_cons. split; [intros H; split; auto | tauto].
Qed.

Lemma map_overwrite_absent {A K : Type} `{EqDecision K} (key : A -> K) (id : K)
    (f : A -> A) (l : list A) :
  id ∉ map key l ->
  map (fun v => if bool_decide (key v = id) then f v else v) l = l.
Proof.
  induction l as [|v l IH]; simpl; [reflexivity|].
  intros H. apply not_elem_of_cons in H as [H1 H2].
  rewrite bool_decide_eq_false_2 by congruence. rewrite IH by assumption. reflexivity.
Qed.

Lemma merge_account_spec (l : list Account.t) (id : Z) (phone : Phone) (balance : Money) :
  merge_account l id phone balance =
  if decide (id ∈ map Account.ID l) then map (overwrite_account id phone balance) l
  else l ++ [Account.mk id phone balance].
Proof.
  unfold merge_account. rewrite (flag_spec Account.ID).
  destruct (decide (id ∈ map Account.ID l)) as [Hin|Hout].
  - rewrite bool_decide_eq_false_2 by tauto. reflexivity.
  - rewrite bool_decide_eq_true_2 by assumption.
    rewrite (map_overwrite_absent Account.ID) by assumption. reflexivity.
Qed.

Lemma merge_payment_spec (l : list Payment.t) (id : string) (aid : Z) (amount : Money)
    (category : PaymentCategory) (status : PaymentStatus) :
  merge_payment l id aid amount category status =
  if decide (id ∈ map Payment.ID l)
  then map (overwrite_payment id aid amount category status) l
  else l ++ [Payment.mk id aid amount category status].
Proof.
  unfold merge_payment. rewrite (flag_spec Payment.ID).
  destruct (decide (id ∈ map Payment.ID l)) as [Hin|Hout].
  - rewrite bool_decide_eq_false_2 by tauto. reflexivity.
  - rewrite bool_decide_eq_true_2 by assumption.
    rewrite (map_overwrite_absent Payment.ID) by assumption. reflexivity.
Qed.

Lemma merge_favorite_spec (l : list Favorite.t) (id : string) (aid : Z) (amount : Money)
    (category : PaymentCategory) :
  merge_favorite l id aid amount category =
  if decide (id ∈ map Favorite.ID l) then map (overwrite_favorite id aid amount category) l
  else l ++ [Favorite.mk id aid EmptyString amount category].
Proof.
  unfold merge_favorite. rewrite (flag_spec Favorite.ID).
  destruct (decide (id ∈ map Favorite.ID l)) as [Hin|Hout].
  - rewrite bool_decide_eq_false_2 by tauto. reflexivity.
  - rewrite bool_decide_eq_true_2 by assumption.
    rewrite (map_overwrite_absent Favorite.ID) by assumption. reflexivity.
Qed.

Lemma import_account_line_text (l : list Account.t) (a : Account.t) :
  account_plain_B a ->
  import_account_line l (account_text a) =
  (merge_account l (Account.ID a) (Account.Phone a) (Account.Balance a), Ok tt).
Proof.
  intros ((Hid & Hbal) & Hs & _). unfold import_account_line.
  rewrite Split_account_text by assumption. cbn [index lookup list_lookup mbind outcome_bind].
  rewrite !ParseInt_Itoa by assumption. reflexivity.
Qed.

Lemma import_payment_line_text (l : list Payment.t) (p : Payment.t) :
  payment_plain_B p ->
  import_payment_line l (payment_text p) =
  (merge_payment l (Payment.ID p) (Payment.AccountID p) (Payment.Amount p)
     (Payment.Category p) (Payment.Status p), Ok tt).
Proof.
  intros Hp. unfold import_payment_line. rewrite Split_payment_text by assumption.
  destruct Hp as (Ha & Hm & _).
  cbn [index lookup list_lookup mbind outcome_bind].
  rewrite !ParseInt_Itoa by assumption. reflexivity.
Qed.

Lemma import_favorite_line_text (l : list Favorite.t) (f : Favorite.t) :
  favorite_plain_B f ->
  import_favorite_line l (favorite_text f) =
  (merge_favorite l (Favorite.ID f) (Favorite.AccountID f) (Favorite.Amount f)
     (Favorite.Category f), Ok tt).
Proof.
  intros Hf. unfold import_favorite_line. rewrite Split_favorite_text by assumption.
  destruct Hf as (Ha & Hm & _).
  cbn [index lookup list_lookup mbind outcome_bind].
  rewrite !ParseInt_Itoa by assumption. reflexivity.
Qed.

(** ** Importing what has just been exported *)

(** Lines that only overwrite: the keys of the collection stay as they
    were, and no line fails. *)
Lemma import_lines_same_keys {A K : Type} (key : A -> K)
    (step : list A -> string -> list A * outcome unit) (text : A -> string)
    (src l0 : list A) :
  (forall l a, a ∈ src -> map key l = map key l0 ->
     exists l', step l (text a) = (l', Ok tt) /\ map key l' = map key l0) ->
  forall l, map key l = map key l0 ->
  exists l', import_lines step l (map text src) = (l', Ok tt) /\ map key l' = map key l0.
Proof.
  induction src as [|a src IH]; intros Hstep l Hl.
  - exists l. split; [reflexivity | assumption].
  - destruct (Hstep l a) as (l1 & H1 & Hk1); [apply elem_of_cons; auto | assumption |].
    cbn [map import_lines]. rewrite H1. apply IH; [|assumption].
    intros l2 b Hb. apply Hstep. apply elem_of_cons. auto.
Qed.

Lemma map_overwrite_account_ID (id : Z) (phone : Phone) (balance : Money) (l : list Account.t) :
  map Account.ID (map (overwrite_account id phone balance) l) = map Account.ID l.
Proof.
  rewrite map_map. apply map_ext. intros v. unfold overwrite_account.
  destruct (bool_decide _); reflexivity.
Qed.

Lemma map_overwrite_payment_ID (id : string) (aid : Z) (amount : Money)
    (category : PaymentCategory) (status : PaymentStatus) (l : list Payment.t) :
  map Payment.ID (map (overwrite_payment id aid amount category status) l) = map Payment.ID l.
Proof.
  rewrite map_map. apply map_ext. intros v. unfold overwrite_payment.
  destruct (bool_decide _); reflexivity.
Qed.

Lemma map_overwrite_favorite_ID (id : string) (aid : Z) (amount : Money)
    (category : PaymentCategory) (l : list Favorite.t) :
  map Favorite.ID (map (overwrite_favorite id aid amount category) l) = map Favorite.ID l.
Proof.
  rewrite map_map. apply map_ext. intros v. unfold overwrite_favorite.
  destruct (bool_decide _); reflexivity.
Qed.

(** What [Import] does with a dump that holds the collection itself. *)
Lemma import_own_accounts (fs : FS) (path : string) (l : list Account.t) :
  Forall account_plain_B l ->
  files fs !! path = match l with [] => None | _ => Some (dump_accounts l) end ->
  exists l', import_dump import_account_line fs path l = (l', Ok tt) /\
             map Account.ID l' = map Account.ID l.
Proof.
  intros Hl Hfile. unfold import_dump. rewrite Hfile. destruct l as [|a0 l0] eqn:El.
  { exists []. split; reflexivity. }
  rewrite <- El in *. clear El a0 l0 Hfile.
  rewrite (Split_lines account_text dump_accounts l eq_refl dump_accounts_cons).
  - apply (import_lines_same_keys Account.ID); [|reflexivity].
    intros l1 a Ha Hk. rewrite import_account_line_text
      by (eapply Forall_forall in Hl; eassumption).
    rewrite merge_account_spec. rewrite decide_True.
    + eexists. split; [reflexivity|]. rewrite map_overwrite_account_ID. assumption.
    + rewrite Hk. apply list_elem_of_fmap. exists a. auto.
  - eapply Forall_impl; [exact Hl|]. intros a (_ & Hs & Hn).
    apply account_text_free; try assumption; try discriminate. reflexivity.
Qed.

Lemma import_own_payments (fs : FS) (path : string) (l : list Payment.t) :
  Forall payment_plain_B l ->
  files fs !! path = match l with [] => None | _ => Some (dump_payments l) end ->
  exists l', import_dump import_payment_line fs path l = (l', Ok tt) /\
             map Payment.ID l' = map Payment.ID l.
Proof.
  intros Hl Hfile. unfold import_dump. rewrite Hfile. destruct l as [|a0 l0] eqn:El.
  { exists []. split; reflexivity. }
  rewrite <- El in *. clear El a0 l0 Hfile.
  rewrite (Split_lines payment_text dump_payments l eq_refl dump_payments_cons).
  - apply (import_lines_same_keys Payment.ID); [|reflexivity].
    intros l1 a Ha Hk. rewrite import_payment_line_text
      by (eapply Forall_forall in Hl; eassumption).
    rewrite merge_payment_spec. rewrite decide_True.
    + eexists. split; [reflexivity|]. rewrite map_overwrite_payment_ID. assumption.
    + rewrite Hk. apply list_elem_of_fmap. exists a. auto.
  - eapply Forall_impl; [exact Hl|]. intros a Ha. apply payment_text_free, Ha.
Qed.

Lemma import_own_favorites (fs : FS) (path : string) (l : list Favorite.t) :
  Forall favorite_plain_B l ->
  files fs !! path = match l with [] => None | _ => Some (dump_favorites l) end ->
  exists l', import_dump import_favorite_line fs path l = (l', Ok tt) /\
             map Favorite.ID l' = map Favorite.ID l.
Proof.
  intros Hl Hfile. unfold import_dump. rewrite Hfile. destruct l as [|a0 l0] eqn:El.
  { exists []. split; reflexivity. }
  rewrite <- El in *. clear El a0 l0 Hfile.
  rewrite (Split_lines favorite_text dump_favorites l eq_refl dump_favorites_cons).
  - apply (import_lines_same_keys Favorite.ID); [|reflexivity].
    intros l1 a Ha Hk. rewrite import_favorite_line_text
      by (eapply Forall_forall in Hl; eassumption).
    rewrite merge_favorite_spec. rewrite decide_True.
    + eexists. split; [reflexivity|]. rewrite map_overwrite_favorite_ID. assumption.
    + rewrite Hk. apply list_elem_of_fmap. exists a. auto.
  - eapply Forall_impl; [exact Hl|]. intros a Ha. apply favorite_text_free, Ha.
Qed.

Lemma append_inj_r (d a b : string) : d +:+ a = d +:+ b -> a = b.
Proof.
  induction d as [|c d IH]; [intros H; exact H|].
  intros H. apply IH.
  change (String c (d +:+ a) = String c (d +:+ b)) in H. congruence.
Qed.

Lemma dump_paths_distinct (dir : string) :
  accounts_dump dir <> payments_dump dir /\
  accounts_dump dir <> favorites_dump dir /\
  payments_dump dir <> favorites_dump dir.
Proof.
  unfold accounts_dump, payments_dump, favorites_dump.
  split_and!; intros H; apply append_inj_r in H; discriminate H.
Qed.

Lemma Export_files (s : Service) (dir : string) (fs : FS) :
  dump_fresh fs (accounts_dump dir) (accounts s) ->
  dump_fresh fs (payments_dump dir) (payments s) ->
  dump_fresh fs (favorites_dump dir) (favorites s) ->
  let fsE := (Export s dir fs).1 in
  files fsE !! accounts_dump dir =
    match accounts s with [] => None | _ => Some (dump_accounts (accounts s)) end /\
  files fsE !! payments_dump dir =
    match payments s with [] => None | _ => Some (dump_payments (payments s)) end /\
  files fsE !! favorites_dump dir =
    match favorites s with [] => None | _ => Some (dump_favorites (favorites s)) end.
Proof.
  destruct (dump_paths_distinct dir) as (Hap & Haf & Hpf).
  unfold Export, dump_fresh.
  destruct (accounts s) as [|a la], (payments s) as [|p lp], (favorites s) as [|f lf];
    cbn [length fst]; intros Ha Hp Hf;
    repeat match goal with
           | |- context [decide (0 < ?n)%nat] => destruct (decide (0 < n)%nat); [|lia]
           | |- context [decide (0 < ?n)%nat] => destruct (decide (0 < n)%nat); [lia|]
           end;
    unfold open_and_write, write_file; cbn [denied files];
    rewrite ?Ha, ?Hp, ?Hf; cbn [denied files];
    rewrite ?Ha, ?Hp, ?Hf; cbn [denied files];
    rewrite ?Ha, ?Hp, ?Hf; cbn [denied files];
    split_and!;
    repeat first
      [ rewrite lookup_insert_eq
      | rewrite lookup_insert_ne by congruence ];
    first [ reflexivity | assumption ].
Qed.

Lemma import_dump_absent {A : Type} (step : list A -> string -> list A * outcome unit)
    (fs : FS) (path : string) (l : list A) :
  files fs !! path = None -> import_dump step fs path l = (l, Ok tt).
Proof. intros H. unfold import_dump. rewrite H. reflexivity. Qed.

(** Lines that are the texts of records: the loop merges them one after
    the other and returns no error. *)
Lemma import_lines_merged {A : Type} (step : list A -> string -> list A * outcome unit)
    (text : A -> string) (merge1 : list A -> A -> list A) (recs : list A) :
  (forall l a, a ∈ recs -> step l (text a) = (merge1 l a, Ok tt)) ->
  forall l, import_lines step l (map text recs) = (foldl merge1 l recs, Ok tt).
Proof.
  induction recs as [|a recs IH]; intros Hstep l; [reflexivity|].
  cbn [map import_lines foldl]. rewrite Hstep by (apply elem_of_cons; auto).
  apply IH. intros l' b Hb. apply Hstep. apply elem_of_cons. auto.
Qed.

Lemma import_account_line_merge (l : list Account.t) (a : Account.t) :
  account_plain_B a -> import_account_line l (account_text a) = (merge_one_account l a, Ok tt).
Proof.
  intros Ha. rewrite import_account_line_text, merge_account_spec by assumption.
  unfold merge_one_account. destruct a. reflexivity.
Qed.

Lemma import_payment_line_merge (l : list Payment.t) (p : Payment.t) :
  payment_plain_B p -> import_payment_line l (payment_text p) = (merge_one_payment l p, Ok tt).
Proof.
  intros Hp. rewrite import_payment_line_text, merge_payment_spec by assumption.
  unfold merge_one_payment. destruct p. reflexivity.
Qed.

Lemma import_favorite_line_merge (l : list Favorite.t) (f : Favorite.t) :
  favorite_plain_B f ->
  import_favorite_line l (favorite_text f) = (merge_one_favorite l f, Ok tt).
Proof.
  intros Hf. rewrite import_favorite_line_text, merge_favorite_spec by assumption.
  reflexivity.
Qed.

(** What one block of [Import] does with a file that is missing or holds
    the dump of the records [recs]. *)
Lemma import_dump_accounts (fs : FS) (path : string) (o : option (list Account.t))
    (l : list Account.t) :
  files fs !! path = dump_accounts <$> o -> Forall account_plain_B (default [] o) ->
  import_dump import_account_line fs path l = (merged_accounts l (default [] o), Ok tt).
Proof.
  intros Hfile Hplain. unfold import_dump. rewrite Hfile.
  destruct o as [recs|]; [|reflexivity]. cbn [fmap option_fmap option_map default] in *.
  rewrite (Split_lines account_text dump_accounts recs eq_refl dump_accounts_cons).
  - apply import_lines_merged. intros l' a Ha. apply import_account_line_merge.
    eapply Forall_forall in Hplain; eassumption.
  - eapply Forall_impl; [exact Hplain|]. intros a (_ & Hs & Hn).
    apply account_text_free; try assumption; try discriminate. reflexivity.
Qed.

Lemma import_dump_payments (fs : FS) (path : string) (o : option (list Payment.t))
    (l : list Payment.t) :
  files fs !! path = dump_payments <$> o -> Forall payment_plain_B (default [] o) ->
  import_dump import_payment_line fs path l = (merged_payments l (default [] o), Ok tt).
Proof.
  intros Hfile Hplain. unfold import_dump. rewrite Hfile.
  destruct o as [recs|]; [|reflexivity]. cbn [fmap option_fmap option_map default] in *.
  rewrite (Split_lines payment_text dump_payments recs eq_refl dump_payments_cons).
  - apply import_lines_merged. intros l' a Ha. apply import_payment_line_merge.
    eapply Forall_forall in Hplain; eassumption.
  - eapply Forall_impl; [exact Hplain|]. intros a Ha. apply payment_text_free, Ha.
Qed.

Lemma import_dump_favorites (fs : FS) (path : string) (o : option (list Favorite.t))
    (l : list Favorite.t) :
  files fs !! path = dump_favorites <$> o -> Forall favorite_plain_B (default [] o) ->
  import_dump import_favorite_line fs path l = (merged_favorites l (default [] o), Ok tt).
Proof.
  intros Hfile Hplain. unfold import_dump. rewrite Hfile.
  destruct o as [recs|]; [|reflexivity]. cbn [fmap option_fmap option_map default] in *.
  rewrite (Split_lines favorite_text dump_favorites recs eq_refl dump_favorites_cons).
  - apply import_lines_merged. intros l' a Ha. apply import_favorite_line_merge.
    eapply Forall_forall in Hplain; eassumption.
  - eapply Forall_impl; [exact Hplain|]. intros a Ha. apply favorite_text_free, Ha.
Qed.

(** C4 (amended). [Import] skips a dump that does not exist: the
    collection of a missing file is left as it is, and with no file at all
    the service is unchanged and no error is returned.  A record is merged
    by identifier: when entities of the collection have the identifier,
    their other fields are overwritten in place (the name of a favorite
    excepted), otherwise one new entity is appended; and [Import] of a
    directory whose dumps, those that exist, hold the texts of records
    returns no error and the service in which the records of each dump have
    been merged into its collection one after the other, the counter being
    left alone.  Consequently, when no text field of the service contains
    [;] or a line feed and every dump present after [Export] is the one that
    [Export] wrote (the files of the non-empty collections could be written
    and no dump exists for an empty collection), [Export] followed by
    [Import] on the same service returns no error and leaves the sizes, and
    the identifiers, of the three collections unchanged. *)
Theorem Import_merges_by_ID (s : Service) (dir : string) (fs : FS) :
  (files fs !! accounts_dump dir = None -> files fs !! payments_dump dir = None ->
   files fs !! favorites_dump dir = None -> Import s dir fs = (s, Ok tt)) /\
  (files fs !! accounts_dump dir = None -> accounts (Import s dir fs).1 = accounts s) /\
  (files fs !! payments_dump dir = None -> payments (Import s dir fs).1 = payments s) /\
  (files fs !! favorites_dump dir = None -> favorites (Import s dir fs).1 = favorites s) /\
  (forall l a, account_plain_B a ->
     import_account_line l (account_text a) =
     (if decide (Account.ID a ∈ map Account.ID l)
      then map (overwrite_account (Account.ID a) (Account.Phone a) (Account.Balance a)) l
      else l ++ [a],
      Ok tt)) /\
  (forall l p, payment_plain_B p ->
     import_payment_line l (payment_text p) =
     (if decide (Payment.ID p ∈ map Payment.ID l)
      then map (overwrite_payment (Payment.ID p) (Payment.AccountID p) (Payment.Amount p)
                  (Payment.Category p) (Payment.Status p)) l
      else l ++ [p],
      Ok tt)) /\
  (forall l f, favorite_plain_B f ->
     import_favorite_line l (favorite_text f) =
     (if decide (Favorite.ID f ∈ map Favorite.ID l)
      then map (overwrite_favorite (Favorite.ID f) (Favorite.AccountID f) (Favorite.Amount f)
                  (Favorite.Category f)) l
      else l ++ [Favorite.mk (Favorite.ID f) (Favorite.AccountID f) EmptyString
                   (Favorite.Amount f) (Favorite.Category f)],
      Ok tt)) /\
  (forall (ra : option (list Account.t)) (rp : option (list Payment.t))
          (rf : option (list Favorite.t)),
     files fs !! accounts_dump dir = dump_accounts <$> ra ->
     files fs !! payments_dump dir = dump_payments <$> rp ->
     files fs !! favorites_dump dir = dump_favorites <$> rf ->
     Forall account_plain_B (default [] ra) -> Forall payment_plain_B (default [] rp) ->
     Forall favorite_plain_B (default [] rf) ->
     Import s dir fs =
       (mkService (nextAccountID s)
          (merged_accounts (accounts s) (default [] ra))
          (merged_payments (payments s) (default [] rp))
          (merged_favorites (favorites s) (default [] rf)),
        Ok tt)) /\
  (Forall account_plain_B (accounts s) -> Forall payment_plain_B (payments s) ->
   Forall favorite_plain_B (favorites s) ->
   dump_fresh fs (accounts_dump dir) (accounts s) ->
   dump_fresh fs (payments_dump dir) (payments s) ->
   dump_fresh fs (favorites_dump dir) (favorites s) ->
   let r := Import s dir (Export s dir fs).1 in
   r.2 = Ok tt /\
   length (accounts r.1) = length (accounts s) /\
   length (payments r.1) = length (payments s) /\
   length (favorites r.1) = length (favorites s) /\
   map Account.ID (accounts r.1) = map Account.ID (accounts s) /\
   map Payment.ID (payments r.1) = map Payment.ID (payments s) /\
   map Favorite.ID (favorites r.1) = map Favorite.ID (favorites s)).
Proof.
  split_and!.
  - intros Ha Hp Hf. unfold Import.
    rewrite (import_dump_absent _ _ _ _ Ha). cbn [payments set_accounts].
    rewrite (import_dump_absent _ _ _ _ Hp). cbn [favorites set_payments].
    rewrite (import_dump_absent _ _ _ _ Hf). destruct s. reflexivity.
  - intros Ha. unfold Import. rewrite (import_dump_absent _ _ _ _ Ha).
    destruct (import_dump import_payment_line _ _ _) as [lp [[]|e|]]; try reflexivity.
    destruct (import_dump import_favorite_line _ _ _) as [lf r]. reflexivity.
  - intros Hp. unfold Import.
    destruct (import_dump import_account_line _ _ _) as [la [[]|e|]]; try reflexivity.
    cbn [payments set_accounts]. rewrite (import_dump_absent _ _ _ _ Hp).
    destruct (import_dump import_favorite_line _ _ _) as [lf r]. reflexivity.
  - intros Hf. unfold Import.
    destruct (import_dump import_account_line _ _ _) as [la [[]|e|]]; try reflexivity.
    destruct (import_dump import_payment_line _ _ _) as [lp [[]|e|]]; try reflexivity.
    cbn [favorites set_payments set_accounts]. rewrite (import_dump_absent _ _ _ _ Hf).
    reflexivity.
  - intros l a Ha. apply import_account_line_merge. assumption.
  - intros l p Hp. apply import_payment_line_merge. assumption.
  - intros l f Hf. apply import_favorite_line_merge. assumption.
  - intros ra rp rf Ha Hp Hf Hpa Hpp Hpf. unfold Import.
    rewrite (import_dump_accounts _ _ ra) by assumption. cbn [payments set_accounts].
    rewrite (import_dump_payments _ _ rp) by assumption.
    cbn [favorites set_payments set_accounts].
    rewrite (import_dump_favorites _ _ rf) by assumption. reflexivity.
  - intros Hpa Hpp Hpf Hfa Hfp Hff r.
    destruct (Export_files s dir fs Hfa Hfp Hff) as (Ea & Ep & Ef).
    destruct (import_own_accounts _ _ _ Hpa Ea) as (la & Hia & Hka).
    destruct (import_own_payments _ _ _ Hpp Ep) as (lp & Hip & Hkp).
    destruct (import_own_favorites _ _ _ Hpf Ef) as (lf & Hif & Hkf).
    subst r. unfold Import. rewrite Hia. cbn [payments set_accounts].
    rewrite Hip. cbn [favorites set_payments set_accounts]. rewrite Hif.
    cbn [fst snd accounts payments favorites set_favorites set_payments set_accounts].
    split_and!; try assumption; try reflexivity.
    + rewrite <- (length_map Account.ID la), Hka. apply length_map.
    + rewrite <- (length_map Payment.ID lp), Hkp. apply length_map.
    + rewrite <- (length_map Favorite.ID lf), Hkf. apply length_map.
Qed.

(** C4 as written fails in two ways: a dump of payments left in the
    directory is imported although the service has no payment and [Export]
    wrote none, and a phone with a separator and a line feed in it is read
    back as two accounts. *)
Lemma Format_B_counterexample :
  length (payments (Import one_account "d" (Export one_account "d" stale_dir).1).1)
    <> length (payments one_account) /\
  length (accounts (Import multiline_phone "d" (Export multiline_phone "d" no_files).1).1)
    <> length (accounts multiline_phone).
Proof.
  split; vm_compute; discriminate.
Qed.

Lemma Import_merges_by_ID_witness :
  let r := Import small_ledger "d" (Export small_ledger "d" no_files).1 in
  r.2 = Ok tt /\
  length (accounts r.1) = 1%nat /\ length (payments r.1) = 1%nat /\
  length (favorites r.1) = 1%nat /\
  Import small_ledger "d" no_files = (small_ledger, Ok tt) /\
  Import one_account "d" accounts_dir =
    (mkService 1 [Account.mk 1 "new" 5; Account.mk 7 "y" 9] [] [], Ok tt).
Proof.
  assert (forall z, - 1000 <= z <= 1000 -> int64_range z) as Hr.
  { intros z Hz. int64_arith. }
  pose proof (proj2 (proj2 (proj2 (proj2 (proj2 (proj2 (proj2 (proj2
                (Import_merges_by_ID small_ledger "d" no_files))))))))) as H.
  destruct H as (H1 & H2 & H3 & H4 & _).
  - repeat constructor; try reflexivity; apply Hr; simpl; lia.
  - repeat constructor; try reflexivity; apply Hr; simpl; lia.
  - repeat constructor; try reflexivity; apply Hr; simpl; lia.
  - reflexivity.
  - reflexivity.
  - reflexivity.
  - split; [exact H1|]. split; [exact H2|]. split; [exact H3|]. split; [exact H4|].
    split.
    + apply (proj1 (Import_merges_by_ID small_ledger "d" no_files)); reflexivity.
    + apply (proj1 (proj2 (proj2 (proj2 (proj2 (proj2 (proj2 (proj2
               (Import_merges_by_ID one_account "d" accounts_dir))))))))
               (Some [Account.mk 1 "new" 5; Account.mk 7 "y" 9]) None None).
      * reflexivity.
      * reflexivity.
      * reflexivity.
      * repeat constructor; try reflexivity; apply Hr; simpl; lia.
      * constructor.
      * constructor.
Defined.

(** ** The other calls of the service *)

(** ** First match *)

Lemma list_find_first {A : Type} (P : A -> Prop) `{!forall x, Decision (P x)}
    (l : list A) (i : nat) (x : A) :
  list_find P l = Some (i, x) <->
  l !! i = Some x /\ P x /\ (forall j y, l !! j = Some y -> P y -> (i <= j)%nat).
Proof.
  rewrite list_find_Some. split; intros (Hi & HP & Hmin); split_and!; try assumption.
  - intros j y Hj Hy. destruct (decide (i <= j)%nat) as [|Hlt]; [assumption|].
    exfalso. apply (Hmin j y Hj); [lia | assumption].
  - intros j y Hj Hlt Hy. specialize (Hmin j y Hj Hy). lia.
Qed.

(** X1. [FindAccountByID] fails with [ErrAccountNotFound] exactly when no
    account has the identifier; otherwise it returns an account with the
    identifier, and exactly the one at the least position among them: with
    duplicate identifiers the account added first wins. *)
Theorem FindAccountByID_first_match (s : Service) (accountID : Z) :
  (FindAccountByID s accountID = Err ErrAccountNotFound <->
   forall acc, acc ∈ accounts s -> Account.ID acc <> accountID) /\
  (forall i acc,
     FindAccountByID s accountID = Ok (i, acc) <->
     accounts s !! i = Some acc /\ Account.ID acc = accountID /\
     (forall j y, accounts s !! j = Some y -> Account.ID y = accountID -> (i <= j)%nat)) /\
  ((exists acc, acc ∈ accounts s /\ Account.ID acc = accountID) ->
   exists i acc, FindAccountByID s accountID = Ok (i, acc)).
Proof.
  split_and!.
  - unfold FindAccountByID. destruct (lookup_account (accounts s) accountID) as [r|] eqn:E.
    + split; [discriminate|]. intros Hno. destruct r as [i acc].
      apply lookup_account_Some in E as [Hi Hid]. exfalso.
      apply (Hno acc); [eapply list_elem_of_lookup_2; eassumption | assumption].
    + split; [intros _; apply lookup_account_None; exact E | reflexivity].
  - intros i acc. rewrite FindAccountByID_Ok. unfold lookup_account.
    apply (list_find_first (fun a => Account.ID a = accountID)).
  - intros (acc & Hin & Hid). unfold FindAccountByID.
    destruct (lookup_account (accounts s) accountID) as [[i y]|] eqn:E; [eauto|].
    exfalso. apply (proj1 (lookup_account_None _ _) E acc Hin Hid).
Qed.

Lemma FindAccountByID_first_match_witness :
  FindAccountByID one_account 1 = Ok (0%nat, Account.mk 1 "+992000000001" 100).
Proof.
  apply (proj1 (proj2 (FindAccountByID_first_match one_account 1))).
  split_and!; [reflexivity | reflexivity |]. intros j y _ _. lia.
Defined.

(** X2. [FindFavoriteByID] fails with [ErrFavoriteNotFound] exactly when
    no favorite has the identifier; otherwise it returns the favorite at the
    least position among those with the identifier. *)
Theorem FindFavoriteByID_first_match (s : Service) (favoriteID : string) :
  (FindFavoriteByID s favoriteID = Err ErrFavoriteNotFound <->
   forall f, f ∈ favorites s -> Favorite.ID f <> favoriteID) /\
  (forall i f,
     FindFavoriteByID s favoriteID = Ok (i, f) <->
     favorites s !! i = Some f /\ Favorite.ID f = favoriteID /\
     (forall j y, favorites s !! j = Some y -> Favorite.ID y = favoriteID -> (i <= j)%nat)) /\
  ((exists f, f ∈ favorites s /\ Favorite.ID f = favoriteID) ->
   exists i f, FindFavoriteByID s favoriteID = Ok (i, f)).
Proof.
  unfold FindFavoriteByID.
  destruct (list_find (fun favorite => Favorite.ID favorite = favoriteID) (favorites s))
    as [[i0 f0]|] eqn:E.
  - pose proof (proj1 (list_find_first _ _ _ _) E) as (Hi & Hid & Hmin).
    split_and!.
    + split; [discriminate|]. intros Hno. exfalso.
      apply (Hno f0); [eapply list_elem_of_lookup_2; eassumption | assumption].
    + intros i f. etransitivity;
        [|apply (list_find_first (fun y => Favorite.ID y = favoriteID))].
      rewrite E. split; congruence.
    + eauto.
  - pose proof (proj1 (list_find_None _ _) E) as Hnone. rewrite Forall_forall in Hnone.
    split_and!.
    + split; [intros _; exact Hnone | reflexivity].
    + intros i f. etransitivity;
        [|apply (list_find_first (fun y => Favorite.ID y = favoriteID))].
      rewrite E. split; congruence.
    + intros (f & Hin & Hid). destruct (Hnone f Hin Hid).
Qed.

(** ** The shape of a call *)

Lemma Pay_shape (s : Service) (a : Z) (m : Money) (c : PaymentCategory) (u : string) :
  (exists e, Pay s a m c u = (s, Err e) /\
             e ∈ [ErrAmountMustBePositive; ErrAccountNotFound; ErrNotEnoughtBalance]) \/
  (exists i acc,
     FindAccountByID s a = Ok (i, acc) /\ 0 < m <= Account.Balance acc /\
     Pay s a m c u =
       (mkService (nextAccountID s)
          (<[i := set_Balance acc (wrap64 (Account.Balance acc - m))]> (accounts s))
          (payments s ++ [Payment.mk u a m c PaymentStatusInProgress]) (favorites s),
        Ok (length (payments s), Payment.mk u a m c PaymentStatusInProgress))).
Proof.
  unfold Pay, FindAccountByID. destruct (Z.leb_spec m 0).
  { left. eexists. split; [reflexivity|]. set_solver. }
  destruct (lookup_account (accounts s) a) as [[i acc]|] eqn:E.
  - destruct (Z.ltb_spec (Account.Balance acc) m).
    + left. eexists. split; [reflexivity|]. set_solver.
    + right. exists i, acc. split_and!; [reflexivity | lia | lia | reflexivity].
  - left. eexists. split; [reflexivity|]. set_solver.
Qed.

Lemma Deposit_shape (s : Service) (a : Z) (m : Money) :
  (exists e, Deposit s a m = (s, Err e) /\ e ∈ [ErrAmountMustBePositive; ErrAccountNotFound]) \/
  (exists i acc,
     FindAccountByID s a = Ok (i, acc) /\ 0 <= m /\
     Deposit s a m =
       (set_accounts s (<[i := set_Balance acc (wrap64 (Account.Balance acc + m))]> (accounts s)),
        Ok tt)).
Proof.
  unfold Deposit. destruct (Z.ltb_spec m 0).
  { left. eexists. split; [reflexivity|]. set_solver. }
  destruct (FindAccountByID s a) as [[i acc]|e|] eqn:E.
  - right. exists i, acc. auto.
  - apply FindAccountByID_Err in E. subst e. left. eexists. split; [reflexivity|]. set_solver.
  - destruct (FindAccountByID_no_panic _ _ E).
Qed.

Lemma FindPaymentByID_shape (s : Service) (paymentID : string) :
  (FindPaymentByID s paymentID = Err ErrPaymentNotFound) \/
  (exists k pay, FindPaymentByID s paymentID = Ok (k, pay) /\ payments s !! k = Some pay /\
                 Payment.ID pay = paymentID).
Proof.
  destruct (FindPaymentByID s paymentID) as [[k pay]|e|] eqn:E.
  - right. exists k, pay. apply FindPaymentByID_Ok in E as (H1 & H2 & _). auto.
  - apply FindPaymentByID_Err in E as [-> _]. left. reflexivity.
  - unfold FindPaymentByID in E. destruct (scan_last _ _ _ _); discriminate.
Qed.

Lemma Reject_shape (s : Service) (paymentID : string) :
  (exists e, Reject s paymentID = (s, Err e) /\ e ∈ [ErrPaymentNotFound; ErrAccountNotFound]) \/
  (exists k pay i acc,
     FindPaymentByID s paymentID = Ok (k, pay) /\ payments s !! k = Some pay /\
     FindAccountByID s (Payment.AccountID pay) = Ok (i, acc) /\
     Reject s paymentID =
       (mkService (nextAccountID s)
          (<[i := set_Balance acc (wrap64 (Account.Balance acc + Payment.Amount pay))]>
             (accounts s))
          (<[k := set_Status pay PaymentStatusFail]> (payments s)) (favorites s),
        Ok tt)).
Proof.
  unfold Reject. destruct (FindPaymentByID_shape s paymentID) as [-> | (k & pay & -> & Hk & _)].
  { left. eexists. split; [reflexivity|]. set_solver. }
  destruct (FindAccountByID s (Payment.AccountID pay)) as [[i acc]|e|] eqn:E.
  - right. exists k, pay, i, acc. auto.
  - apply FindAccountByID_Err in E. subst e. left. eexists. split; [reflexivity|]. set_solver.
  - destruct (FindAccountByID_no_panic _ _ E).
Qed.

Lemma FindFavoriteByID_shape (s : Service) (favoriteID : string) :
  (FindFavoriteByID s favoriteID = Err ErrFavoriteNotFound) \/
  (exists i f, FindFavoriteByID s favoriteID = Ok (i, f) /\ favorites s !! i = Some f /\
               Favorite.ID f = favoriteID).
Proof.
  unfold FindFavoriteByID.
  destruct (list_find (fun favorite => Favorite.ID favorite = favoriteID) (favorites s))
    as [[i f]|] eqn:E; [|left; reflexivity].
  right. exists i, f. apply list_find_Some in E as (H1 & H2 & _). auto.
Qed.

Lemma identity_insert (l : list Account.t) (i : nat) (acc : Account.t) (b : Money) :
  l !! i = Some acc -> map identity (<[i := set_Balance acc b]> l) = map identity l.
Proof.
  intros H. change (map identity ?x) with (identity <$> x).
  rewrite list_fmap_insert. apply list_insert_id.
  rewrite list_lookup_fmap, H. reflexivity.
Qed.

Lemma payments_kept_app (l new : list Payment.t) :
  forall k p, l !! k = Some p ->
    exists p', (l ++ new) !! k = Some p' /\ core p' = core p /\
               (Payment.Status p' = Payment.Status p \/ Payment.Status p' = PaymentStatusFail).
Proof.
  intros k p H. exists p. split_and!; [apply lookup_app_l_Some; assumption | reflexivity | auto].
Qed.

Lemma payments_kept_fail (l : list Payment.t) (i : nat) (pay : Payment.t) :
  l !! i = Some pay ->
  forall k p, l !! k = Some p ->
    exists p', (<[i := set_Status pay PaymentStatusFail]> l) !! k = Some p' /\ core p' = core p /\
               (Payment.Status p' = Payment.Status p \/ Payment.Status p' = PaymentStatusFail).
Proof.
  intros Hi k p Hk. destruct (decide (i = k)) as [->|Hne].
  - exists (set_Status pay PaymentStatusFail). assert (p = pay) as -> by congruence.
    split_and!; [|reflexivity | right; reflexivity].
    apply list_lookup_insert_eq. eapply lookup_lt_Some. eassumption.
  - exists p. rewrite list_lookup_insert_ne by assumption. auto.
Qed.

Lemma evolution_refl (s : Service) : evolution s s.
Proof.
  split_and!; [left; auto | | exists []; symmetry; apply app_nil_r].
  intros k p H. exists p. auto.
Qed.

Lemma Pay_evolution (s : Service) (a : Z) (m : Money) (c : PaymentCategory) (u : string) :
  evolution s (Pay s a m c u).1.
Proof.
  destruct (Pay_shape s a m c u) as [(e & -> & _) | (i & acc & Hf & _ & ->)].
  - apply evolution_refl.
  - apply FindAccountByID_Ok, lookup_account_Some in Hf as [Hi _].
    split_and!; cbn [fst accounts payments favorites nextAccountID].
    + left. split; [apply identity_insert; assumption | reflexivity].
    + apply payments_kept_app.
    + exists []. symmetry. apply app_nil_r.
Qed.

Lemma call_evolution (s : Service) (c : Call) : evolution s (call s c).1.
Proof.
  destruct c as [phone | a m c u | a m | pid | pid u | pid name u | fid u]; cbn [call fst].
  - unfold RegisterAccount. destruct (existsb (has_phone phone) (accounts s)) eqn:E.
    + apply evolution_refl.
    + split_and!; cbn [fst accounts payments favorites nextAccountID].
      * right. exists phone. split_and!; try reflexivity.
        intros Hin. apply list_elem_of_fmap in Hin as (acc & Hp & Hacc).
        assert (existsb (has_phone phone) (accounts s) = true) as E'
          by (apply phone_registered_iff; eauto).
        congruence.
      * intros k p H. exists p. auto.
      * exists []. symmetry. apply app_nil_r.
  - apply Pay_evolution.
  - destruct (Deposit_shape s a m) as [(e & -> & _) | (i & acc & Hf & _ & ->)].
    + apply evolution_refl.
    + apply FindAccountByID_Ok, lookup_account_Some in Hf as [Hi _].
      split_and!; cbn [fst accounts payments favorites nextAccountID set_accounts].
      * left. split; [apply identity_insert; assumption | reflexivity].
      * intros k p H. exists p. auto.
      * exists []. symmetry. apply app_nil_r.
  - destruct (Reject_shape s pid) as [(e & -> & _) | (k & pay & i & acc & _ & Hk & Hf & ->)].
    + apply evolution_refl.
    + apply FindAccountByID_Ok, lookup_account_Some in Hf as [Hi _].
      split_and!; cbn [fst accounts payments favorites nextAccountID].
      * left. split; [apply identity_insert; assumption | reflexivity].
      * apply payments_kept_fail. assumption.
      * exists []. symmetry. apply app_nil_r.
  - unfold Repeat. destruct (FindPaymentByID s pid) as [[k pay]|e|].
    + apply Pay_evolution.
    + apply evolution_refl.
    + apply evolution_refl.
  - unfold FavoritePayment. destruct (FindPaymentByID s pid) as [[k pay]|e|].
    + split_and!; cbn [fst accounts payments favorites nextAccountID set_favorites].
      * left. auto.
      * intros j p H. exists p. auto.
      * eexists. reflexivity.
    + apply evolution_refl.
    + apply evolution_refl.
  - unfold PayFromFavorite. destruct (FindFavoriteByID s fid) as [[k f]|e|].
    + apply Pay_evolution.
    + apply evolution_refl.
    + apply evolution_refl.
Qed.

Lemma evolution_kept (s s' : Service) : evolution s s' -> kept s s'.
Proof.
  intros (H1 & H2 & H3). split_and!; [|assumption..].
  destruct H1 as [[-> _] | (phone & _ & -> & _)].
  - exists []. symmetry. apply app_nil_r.
  - rewrite map_app. eexists. reflexivity.
Qed.

Lemma kept_trans (s1 s2 s3 : Service) : kept s1 s2 -> kept s2 s3 -> kept s1 s3.
Proof.
  intros (A1 & P1 & F1) (A2 & P2 & F2). split_and!.
  - destruct A1 as [n1 E1], A2 as [n2 E2]. exists (n1 ++ n2).
    rewrite E2, E1, app_assoc. reflexivity.
  - intros k p Hk. destruct (P1 k p Hk) as (p1 & Hk1 & Hc1 & Hs1).
    destruct (P2 k p1 Hk1) as (p2 & Hk2 & Hc2 & Hs2).
    exists p2. split_and!; [assumption | congruence |].
    destruct Hs2 as [Hs2 | Hs2]; [|right; assumption].
    rewrite Hs2. assumption.
  - destruct F1 as [n1 E1], F2 as [n2 E2]. exists (n1 ++ n2).
    rewrite E2, E1, app_assoc. reflexivity.
Qed.

(** X4. Whatever sequence of such calls is made, nothing is removed or
    moved: the accounts that were there keep their position, identifier and
    phone; the payments that were there keep their position, identifier,
    account, amount and category, and their status is the same or has
    become [PaymentStatusFail]; the favorites that were there are
    unchanged. *)
Theorem calls_keep (s : Service) (cs : list Call) :
  (exists new, map identity (accounts (calls s cs)) = map identity (accounts s) ++ new) /\
  (forall k p, payments s !! k = Some p ->
     exists p', payments (calls s cs) !! k = Some p' /\ core p' = core p /\
                (Payment.Status p' = Payment.Status p \/
                 Payment.Status p' = PaymentStatusFail)) /\
  (exists new, favorites (calls s cs) = favorites s ++ new).
Proof.
  change (kept s (calls s cs)). revert s. induction cs as [|c cs IH]; intros s.
  - apply evolution_kept, evolution_refl.
  - cbn [calls]. eapply kept_trans; [|apply IH]. apply evolution_kept, call_evolution.
Qed.

Lemma calls_keep_witness :
  let s := calls twin_service [CallReject "p"; CallPay 1 10 "food" "u"; CallDeposit 1 5] in
  exists p', payments s !! 1%nat = Some p' /\ core p' = core pay_b /\
             (Payment.Status p' = Payment.Status pay_b \/
              Payment.Status p' = PaymentStatusFail).
Proof.
  apply (proj1 (proj2 (calls_keep twin_service
           [CallReject "p"; CallPay 1 10 "food" "u"; CallDeposit 1 5])) 1%nat pay_b).
  reflexivity.
Defined.

(** ** Distinct identifiers without imports *)

Lemma identity_ids (l l' : list Account.t) :
  map identity l' = map identity l ->
  map Account.ID l' = map Account.ID l /\ map Account.Phone l' = map Account.Phone l.
Proof.
  intros H. split.
  - assert (map fst (map identity l') = map fst (map identity l)) as E by congruence.
    rewrite !map_map in E. exact E.
  - assert (map snd (map identity l') = map snd (map identity l)) as E by congruence.
    rewrite !map_map in E. exact E.
Qed.

Lemma evolution_unique (s s' : Service) :
  evolution s s' -> int64_range (nextAccountID s) -> nextAccountID s < int64_max ->
  unique_accounts s ->
  unique_accounts s' /\ nextAccountID s <= nextAccountID s' <= nextAccountID s + 1.
Proof.
  intros ([[Hid Hn] | (phone & Hnew & Hacc & Hn)] & _) Hr Hmax (Hids & Hph & Hle).
  - apply identity_ids in Hid as [Hi Hp]. unfold unique_accounts, account_ids.
    rewrite Hi, Hp, Hn. split_and!; try assumption; try lia.
    apply Forall_forall. intros a Ha.
    assert (Account.ID a ∈ map Account.ID (accounts s')) as Hin
      by (apply list_elem_of_fmap; eauto).
    rewrite Hi in Hin. apply list_elem_of_fmap in Hin as (b & -> & Hb).
    rewrite Forall_forall in Hle. apply Hle. assumption.
  - assert (wrap64 (nextAccountID s + 1) = nextAccountID s + 1) as Hw
      by (apply wrap64_id; int64_arith).
    rewrite Hw in *. unfold unique_accounts, account_ids. rewrite Hacc, Hn, !map_app.
    cbn [map Account.ID Account.Phone]. split_and!; try lia.
    + apply NoDup_app. split_and!; [assumption | | apply NoDup_singleton].
      intros x Hx Hx'. apply list_elem_of_singleton in Hx'. subst x.
      apply list_elem_of_fmap in Hx as (a & Ha & Hin).
      rewrite Forall_forall in Hle. specialize (Hle a Hin). lia.
    + apply NoDup_app. split_and!; [assumption | | apply NoDup_singleton].
      intros x Hx Hx'. apply list_elem_of_singleton in Hx'. subst x. contradiction.
    + apply Forall_app. split.
      * eapply Forall_impl; [exact Hle|]. intros a Ha. simpl in Ha. lia.
      * constructor; [simpl; lia | constructor].
Qed.

(** X5. Without imports the identifiers stay distinct: when the
    identifiers of the accounts are distinct and not above the counter and
    the phones are distinct, they are still so after any sequence of calls,
    as long as the counter cannot pass the greatest [int64]; the counter
    grows by at most one per call. *)
Theorem calls_unique_accounts (s : Service) (cs : list Call) :
  unique_accounts s -> int64_range (nextAccountID s) ->
  nextAccountID s + Z.of_nat (length cs) <= int64_max ->
  NoDup (account_ids (calls s cs)) /\
  NoDup (map Account.Phone (accounts (calls s cs))) /\
  Forall (fun a => Account.ID a <= nextAccountID (calls s cs)) (accounts (calls s cs)) /\
  nextAccountID s <= nextAccountID (calls s cs) <= nextAccountID s + Z.of_nat (length cs).
Proof.
  revert s. induction cs as [|c cs IH]; intros s Hu Hr Hmax.
  - cbn [calls length]. destruct Hu as (H1 & H2 & H3). split_and!; try assumption; lia.
  - cbn [calls]. cbn [length] in Hmax.
    destruct (evolution_unique s (call s c).1 (call_evolution s c) Hr) as (Hu1 & Hn1);
      [lia | assumption |].
    destruct (IH (call s c).1 Hu1) as (H1 & H2 & H3 & H4).
    + int64_arith.
    + lia.
    + split_and!; try assumption; cbn [length]; lia.
Qed.

Lemma calls_unique_accounts_witness :
  NoDup (account_ids (calls newService
           [CallRegisterAccount "+1"; CallRegisterAccount "+1"; CallRegisterAccount "+2";
            CallDeposit 1 10])).
Proof.
  apply (calls_unique_accounts newService
           [CallRegisterAccount "+1"; CallRegisterAccount "+1"; CallRegisterAccount "+2";
            CallDeposit 1 10]).
  - split_and!; constructor.
  - int64_arith.
  - int64_arith.
Defined.

(** ** Failed calls *)

(** X3. A call of [RegisterAccount], [Pay], [Deposit], [Reject], [Repeat],
    [FavoritePayment] or [PayFromFavorite] that returns an error leaves the
    service exactly as it was, and the error is one of those listed for the
    call by [possible_errors]. *)
Theorem call_failure (s : Service) (c : Call) (e : error) :
  (call s c).2 = Some e -> (call s c).1 = s /\ e ∈ possible_errors c.
Proof.
  destruct c as [phone | a m c u | a m | pid | pid u | pid name u | fid u];
    cbn [call fst snd possible_errors].
  - unfold RegisterAccount. destruct (existsb (has_phone phone) (accounts s)).
    + cbn. intros [= <-]. split; [reflexivity | set_solver].
    + discriminate.
  - destruct (Pay_shape s a m c u) as [(e' & -> & He) | (i & acc & _ & _ & ->)].
    + cbn. intros [= <-]. auto.
    + discriminate.
  - destruct (Deposit_shape s a m) as [(e' & -> & He) | (i & acc & _ & _ & ->)].
    + cbn. intros [= <-]. auto.
    + discriminate.
  - destruct (Reject_shape s pid) as [(e' & -> & He) | (k & pay & i & acc & _ & _ & _ & ->)].
    + cbn. intros [= <-]. auto.
    + discriminate.
  - unfold Repeat. destruct (FindPaymentByID_shape s pid) as [-> | (k & pay & -> & _)].
    + cbn. intros [= <-]. split; [reflexivity | set_solver].
    + destruct (Pay_shape s (Payment.AccountID pay) (Payment.Amount pay)
                  (Payment.Category pay) u) as [(e' & -> & He) | (i & acc & _ & _ & ->)].
      * cbn. intros [= <-]. split; [reflexivity|]. apply elem_of_cons. right. exact He.
      * discriminate.
  - unfold FavoritePayment.
    destruct (FindPaymentByID_shape s pid) as [-> | (k & pay & -> & _)].
    + cbn. intros [= <-]. split; [reflexivity | set_solver].
    + discriminate.
  - unfold PayFromFavorite.
    destruct (FindFavoriteByID_shape s fid) as [-> | (k & f & -> & _)].
    + cbn. intros [= <-]. split; [reflexivity | set_solver].
    + destruct (Pay_shape s (Favorite.AccountID f) (Favorite.Amount f)
                  (Favorite.Category f) u) as [(e' & -> & He) | (i & acc & _ & _ & ->)].
      * cbn. intros [= <-]. split; [reflexivity|]. apply elem_of_cons. right. exact He.
      * discriminate.
Qed.

Lemma call_failure_witness :
  (call one_account (CallRepeat "nothing" "u")).1 = one_account /\
  ErrPaymentNotFound ∈ possible_errors (CallRepeat "nothing" "u").
Proof.
  apply (call_failure one_account (CallRepeat "nothing" "u") ErrPaymentNotFound).
  reflexivity.
Defined.

(** ** Paying again *)

Lemma Pay_success (s : Service) (a : Z) (m : Money) (c : PaymentCategory) (u : string)
    (i : nat) (acc : Account.t) :
  FindAccountByID s a = Ok (i, acc) -> 0 < m <= Account.Balance acc ->
  let payment := Payment.mk u a m c PaymentStatusInProgress in
  let s' := mkService (nextAccountID s)
              (<[i := set_Balance acc (wrap64 (Account.Balance acc - m))]> (accounts s))
              (payments s ++ [payment]) (favorites s) in
  Pay s a m c u = (s', Ok (length (payments s), payment)) /\
  FindAccountByID s' a = Ok (i, set_Balance acc (wrap64 (Account.Balance acc - m))) /\
  FindPaymentByID s' u = Ok (length (payments s), payment).
Proof.
  intros Hf Hm payment s'. apply FindAccountByID_Ok in Hf.
  destruct (lookup_account_Some _ _ _ _ Hf) as [Hi Hid]. split_and!.
  - unfold Pay. destruct (Z.leb_spec m 0); [lia|]. rewrite Hf.
    destruct (Z.ltb_spec (Account.Balance acc) m); [lia|]. reflexivity.
  - apply FindAccountByID_Ok. cbn [accounts s'].
    rewrite (lookup_account_insert _ i _ acc) by (assumption || reflexivity).
    rewrite Hf. cbn. rewrite decide_True by reflexivity. reflexivity.
  - apply FindPaymentByID_Ok. cbn [payments s']. split_and!.
    + rewrite lookup_app_r by lia. rewrite Nat.sub_diag. reflexivity.
    + reflexivity.
    + intros j q Hj _. apply lookup_lt_Some in Hj. rewrite length_app in Hj.
      cbn [length] in Hj. lia.
Qed.



Lemma FindFavoriteByID_first_match_witness :
  FindFavoriteByID twin_favorites "f" = Ok (0%nat, Favorite.mk "f" 1 "first" 10 "food").
Proof.
  apply (proj1 (proj2 (FindFavoriteByID_first_match twin_favorites "f"))).
  split_and!; [reflexivity | reflexivity |]. intros j y _ _. lia.
Defined.

(** ** Favorites and undoing a payment *)

Lemma FindFavoriteByID_Ok (s : Service) (favoriteID : string) (i : nat) (f : Favorite.t) :
  FindFavoriteByID s favoriteID = Ok (i, f) <->
  list_find (fun y => Favorite.ID y = favoriteID) (favorites s) = Some (i, f).
Proof.
  unfold FindFavoriteByID. destruct (list_find _ _) as [r|]; split; congruence.
Qed.

(** X7. [FavoritePayment] fails with [ErrPaymentNotFound] when no payment has
    the identifier.  Otherwise it appends one favorite made of the generated
    identifier, the name, and the account, amount and category of the
    payment, changes nothing else and returns the favorite.
    [FindFavoriteByID] then finds this favorite under its identifier when
    the identifier is new; when an older favorite has the identifier, the
    older one is still the one found. *)
Theorem FavoritePayment_spec (s : Service) (paymentID name uuid : string) :
  ((forall p, p ∈ payments s -> Payment.ID p <> paymentID) ->
   FavoritePayment s paymentID name uuid = (s, Err ErrPaymentNotFound)) /\
  (forall k pay,
     FindPaymentByID s paymentID = Ok (k, pay) ->
     let fav := Favorite.mk uuid (Payment.AccountID pay) name (Payment.Amount pay)
                  (Payment.Category pay) in
     let s' := (FavoritePayment s paymentID name uuid).1 in
     FavoritePayment s paymentID name uuid = (s', Ok (length (favorites s), fav)) /\
     favorites s' = favorites s ++ [fav] /\
     accounts s' = accounts s /\ payments s' = payments s /\
     nextAccountID s' = nextAccountID s /\
     ((forall f, f ∈ favorites s -> Favorite.ID f <> uuid) ->
      FindFavoriteByID s' uuid = Ok (length (favorites s), fav)) /\
     (forall i old, FindFavoriteByID s uuid = Ok (i, old) ->
                    FindFavoriteByID s' uuid = Ok (i, old))).
Proof.
  split.
  - intros Hno. unfold FavoritePayment.
    rewrite (proj2 (FindPaymentByID_Err s paymentID ErrPaymentNotFound)) by auto.
    reflexivity.
  - intros k pay Hp. unfold FavoritePayment. rewrite Hp.
    cbn [fst favorites accounts payments nextAccountID set_favorites].
    split_and!; try reflexivity.
    + intros Hnew. apply FindFavoriteByID_Ok. cbn [favorites set_favorites].
      rewrite list_find_app_r.
      * cbn. rewrite decide_True by reflexivity. cbn. reflexivity.
      * apply list_find_None, Forall_forall. exact Hnew.
    + intros i old Hold. apply FindFavoriteByID_Ok. cbn [favorites set_favorites].
      apply list_find_app_l. apply FindFavoriteByID_Ok. exact Hold.
Qed.

Lemma FavoritePayment_spec_witness :
  exists s',
    FavoritePayment twin_service "p" "lunch" "f1" =
      (s', Ok (0%nat, Favorite.mk "f1" 1 "lunch" 250 "auto")) /\
    FindFavoriteByID s' "f1" = Ok (0%nat, Favorite.mk "f1" 1 "lunch" 250 "auto").
Proof.
  destruct (proj2 (FavoritePayment_spec twin_service "p" "lunch" "f1") 1%nat pay_b eq_refl)
    as (H1 & _ & _ & _ & _ & H2 & _).
  eexists. split; [exact H1|]. apply H2.
  intros f Hf. apply elem_of_nil in Hf. contradiction.
Defined.

(** [Pay] neither reads nor writes the favorites. *)
Lemma Pay_set_favorites (s : Service) (l : list Favorite.t) (a : Z) (m : Money)
    (c : PaymentCategory) (u : string) :
  Pay (set_favorites s l) a m c u =
  (set_favorites (Pay s a m c u).1 l, (Pay s a m c u).2).
Proof.
  unfold Pay. cbn [accounts set_favorites]. destruct (m <=? 0); [reflexivity|].
  destruct (lookup_account (accounts s) a) as [[i acc]|]; [|reflexivity].
  destruct (Account.Balance acc <? m); reflexivity.
Qed.

(** X8. [PayFromFavorite] fails with [ErrFavoriteNotFound] when no favorite
    has the identifier.  Right after [FavoritePayment] of a payment under a
    new identifier, [PayFromFavorite] of that identifier does what [Repeat]
    of the payment does: same result, same accounts and payments. *)
Theorem PayFromFavorite_after_FavoritePayment (s : Service) (uuid : string) :
  (forall favoriteID,
     (forall f, f ∈ favorites s -> Favorite.ID f <> favoriteID) ->
     PayFromFavorite s favoriteID uuid = (s, Err ErrFavoriteNotFound)) /\
  (forall paymentID name favoriteID k pay,
     FindPaymentByID s paymentID = Ok (k, pay) ->
     (forall f, f ∈ favorites s -> Favorite.ID f <> favoriteID) ->
     let s1 := (FavoritePayment s paymentID name favoriteID).1 in
     (PayFromFavorite s1 favoriteID uuid).2 = (Repeat s paymentID uuid).2 /\
     accounts (PayFromFavorite s1 favoriteID uuid).1 = accounts (Repeat s paymentID uuid).1 /\
     payments (PayFromFavorite s1 favoriteID uuid).1 = payments (Repeat s paymentID uuid).1 /\
     favorites (PayFromFavorite s1 favoriteID uuid).1 = favorites s1).
Proof.
  split.
  - intros fid Hno. unfold PayFromFavorite, FindFavoriteByID.
    rewrite (proj2 (list_find_None _ _)); [reflexivity|]. apply Forall_forall. exact Hno.
  - intros pid name fid k pay Hp Hnew s1.
    assert (FindFavoriteByID s1 fid =
            Ok (length (favorites s),
                Favorite.mk fid (Payment.AccountID pay) name (Payment.Amount pay)
                  (Payment.Category pay))) as Hfind.
    { subst s1. unfold FavoritePayment. rewrite Hp. cbn [fst].
      apply FindFavoriteByID_Ok. cbn [favorites set_favorites].
      rewrite list_find_app_r.
      - cbn. rewrite decide_True by reflexivity. cbn. reflexivity.
      - apply list_find_None, Forall_forall. exact Hnew. }
    unfold PayFromFavorite. rewrite Hfind. cbn [Favorite.AccountID Favorite.Amount
      Favorite.Category]. unfold Repeat. rewrite Hp.
    subst s1. unfold FavoritePayment. rewrite Hp. cbn [fst].
    rewrite Pay_set_favorites. cbn [fst snd].
    split_and!; reflexivity.
Qed.

Lemma PayFromFavorite_after_FavoritePayment_witness :
  let s1 := (FavoritePayment twin_service "p" "lunch" "f1").1 in
  (PayFromFavorite s1 "f1" "u").2 = (Repeat twin_service "p" "u").2 /\
  PayFromFavorite twin_service "f1" "u" = (twin_service, Err ErrFavoriteNotFound).
Proof.
  split.
  - apply (proj2 (PayFromFavorite_after_FavoritePayment twin_service "u")
             "p" "lunch" "f1" 1%nat pay_b eq_refl).
    intros f Hf. apply elem_of_nil in Hf. contradiction.
  - apply (proj1 (PayFromFavorite_after_FavoritePayment twin_service "u")).
    intros f Hf. apply elem_of_nil in Hf. contradiction.
Defined.

(** X9. A payment rejected right after it was made is undone: whatever the
    generated identifier is, even one that older payments have, [Reject] of
    it finds the new payment, succeeds, gives the account its balance back
    and leaves the payment in the list with the status
    [PaymentStatusFail]. *)
Theorem Pay_then_Reject (s s1 : Service) (a : Z) (m : Money) (c : PaymentCategory)
    (u : string) (r : nat * Payment.t) :
  Pay s a m c u = (s1, Ok r) ->
  (forall i acc, FindAccountByID s a = Ok (i, acc) -> int64_range (Account.Balance acc)) ->
  FindPaymentByID s1 u = Ok r /\
  Reject s1 u =
    (mkService (nextAccountID s) (accounts s)
       (payments s ++ [Payment.mk u a m c PaymentStatusFail]) (favorites s),
     Ok tt).
Proof.
  intros Hpay Hrange.
  destruct (Pay_shape s a m c u) as [(e & He & _) | (i & acc & Hf & Hm & Hs)];
    [congruence|].
  destruct (Pay_success s a m c u i acc Hf Hm) as (_ & Hacc & Hfind).
  rewrite Hs in Hpay. injection Hpay as <- <-.
  split; [exact Hfind|].
  unfold Reject. rewrite Hfind. cbn [Payment.AccountID Payment.Amount].
  rewrite Hacc. cbn [nextAccountID accounts payments favorites Account.Balance set_Balance].
  pose proof (Hrange i acc Hf) as Hr.
  apply FindAccountByID_Ok, lookup_account_Some in Hf as [Hi _].
  f_equal. f_equal.
  - rewrite list_insert_insert_eq.
    rewrite wrap64_add_l.
    replace (Account.Balance acc - m + m) with (Account.Balance acc) by lia.
    rewrite (wrap64_id (Account.Balance acc)) by assumption.
    apply list_insert_id. rewrite Hi. destruct acc. reflexivity.
  - rewrite insert_app_r_alt by lia. rewrite Nat.sub_diag. reflexivity.
Qed.

Lemma Pay_then_Reject_witness :
  Reject (Pay twin_service 1 30 "food" "p").1 "p" =
    (mkService 1 (accounts twin_service)
       (payments twin_service ++ [Payment.mk "p" 1 30 "food" PaymentStatusFail]) [],
     Ok tt).
Proof.
  apply (proj2 (Pay_then_Reject twin_service (Pay twin_service 1 30 "food" "p").1
                  1 30 "food" "p"
                  (2%nat, Payment.mk "p" 1 30 "food" PaymentStatusInProgress) eq_refl
                  ltac:(intros i acc H; vm_compute in H; injection H as <- <-;
                        int64_arith))).
Defined.

(** ** Files, directories and further edge cases *)

Lemma Split_app (a b : string) (sep : ascii) :
  Split (a +:+ String sep b) sep = Split a sep ++ Split b sep.
Proof.
  induction a as [|c a IH].
  - change (EmptyString +:+ String sep b) with (String sep b).
    cbn [Split]. rewrite bool_decide_eq_true_2 by reflexivity. reflexivity.
  - change (String c a +:+ String sep b) with (String c (a +:+ String sep b)).
    cbn [Split]. rewrite IH. destruct (bool_decide (c = sep)); [reflexivity|].
    destruct (Split_nonempty a sep) as (h & t & ->). reflexivity.
Qed.

(** The text after the last [|] is not a record. *)
Lemma records_of_tail (data tail : string) :
  free_of pipe tail = true -> records_of (data +:+ String pipe tail) = Split data pipe.
Proof.
  intros H. unfold records_of. rewrite Split_app, (Split_free tail) by assumption.
  apply drop_last_snoc.
Qed.

(** X10. [ExportToFile] fails with [ErrFileNotFound] and writes nothing when
    the file cannot be created; otherwise it replaces the content of that
    file alone by the text of the accounts.  [ImportFromFile] fails with
    [ErrFileNotFound] and leaves the service unchanged when the file does
    not exist.  It never reads what follows the last [|]: a file without
    any [|] imports nothing and returns no error, and a file with text
    after its last [|] is imported exactly as the file cut after that
    [|]. *)
Theorem Format_A_files (s : Service) (path : string) (fs : FS) :
  (denied fs path = true -> ExportToFile s path fs = (fs, Err ErrFileNotFound)) /\
  (denied fs path = false ->
   (ExportToFile s path fs).2 = Ok tt /\
   files (ExportToFile s path fs).1 !! path = Some (export_text (accounts s)) /\
   (forall p, p <> path -> files (ExportToFile s path fs).1 !! p = files fs !! p)) /\
  (files fs !! path = None -> ImportFromFile s path fs = (s, Err ErrFileNotFound)) /\
  (forall text, files fs !! path = Some text -> free_of pipe text = true ->
     ImportFromFile s path fs = (s, Ok tt)) /\
  (forall data tail, files fs !! path = Some (data +:+ String pipe tail) ->
     free_of pipe tail = true ->
     ImportFromFile s path fs =
     ImportFromFile s path (write_file fs path (data +:+ String pipe EmptyString))).
Proof.
  split_and!.
  - intros H. unfold ExportToFile. rewrite H. reflexivity.
  - intros H. unfold ExportToFile. rewrite H. cbn [fst snd write_file files].
    split_and!; [reflexivity | apply lookup_insert_eq |].
    intros p Hp. apply lookup_insert_ne. congruence.
  - intros H. unfold ImportFromFile. rewrite H. reflexivity.
  - intros text H Hfree. unfold ImportFromFile. rewrite H. unfold records_of.
    rewrite Split_free by assumption. reflexivity.
  - intros data tail H Hfree. unfold ImportFromFile, write_file. cbn [files].
    rewrite H, lookup_insert_eq. rewrite !records_of_tail by (assumption || reflexivity).
    reflexivity.
Qed.

Lemma Format_A_files_witness :
  ExportToFile one_account "/export.txt" unterminated_export =
    (unterminated_export, Err ErrFileNotFound) /\
  ImportFromFile newService "data.txt" unterminated_export = (newService, Err ErrFileNotFound) /\
  ImportFromFile newService "export.txt" unterminated_export =
    ImportFromFile newService "export.txt"
      (write_file unterminated_export "export.txt" "1;a;5|") /\
  accounts (ImportFromFile newService "export.txt" unterminated_export).1 =
    [Account.mk 1 "a" 5].
Proof.
  split_and!.
  - apply (proj1 (Format_A_files one_account "/export.txt" unterminated_export)).
    reflexivity.
  - apply (proj1 (proj2 (proj2 (Format_A_files newService "data.txt" unterminated_export)))).
    reflexivity.
  - apply (proj2 (proj2 (proj2 (proj2 (Format_A_files newService "export.txt"
                                          unterminated_export)))) "1;a;5" "2;b");
      reflexivity.
  - reflexivity.
Defined.

(** X11. [Export] never returns an error.  In the directory it replaces
    exactly the dumps of the collections that are not empty and whose file
    can be opened, each by the text of the whole collection; the dump of an
    empty collection, a dump that cannot be opened and every other file are
    left as they were. *)
Theorem Export_files_written (s : Service) (dir : string) (fs : FS) :
  (Export s dir fs).2 = Ok tt /\
  files (Export s dir fs).1 !! accounts_dump dir =
    (if bool_decide (accounts s <> []) && negb (denied fs (accounts_dump dir))
     then Some (dump_accounts (accounts s)) else files fs !! accounts_dump dir) /\
  files (Export s dir fs).1 !! payments_dump dir =
    (if bool_decide (payments s <> []) && negb (denied fs (payments_dump dir))
     then Some (dump_payments (payments s)) else files fs !! payments_dump dir) /\
  files (Export s dir fs).1 !! favorites_dump dir =
    (if bool_decide (favorites s <> []) && negb (denied fs (favorites_dump dir))
     then Some (dump_favorites (favorites s)) else files fs !! favorites_dump dir) /\
  (forall p, p <> accounts_dump dir -> p <> payments_dump dir -> p <> favorites_dump dir ->
     files (Export s dir fs).1 !! p = files fs !! p) /\
  (forall p, denied (Export s dir fs).1 p = denied fs p).
Proof.
  destruct (dump_paths_distinct dir) as (Hap & Haf & Hpf).
  unfold Export.
  destruct (accounts s) as [|a la], (payments s) as [|p lp], (favorites s) as [|f lf];
    cbn [length fst snd];
    repeat match goal with
           | |- context [decide (0 < ?n)%nat] => destruct (decide (0 < n)%nat); [|lia]
           | |- context [decide (0 < ?n)%nat] => destruct (decide (0 < n)%nat); [lia|]
           end;
    unfold open_and_write, write_file;
    destruct (denied fs (accounts_dump dir)) eqn:Da,
             (denied fs (payments_dump dir)) eqn:Dp,
             (denied fs (favorites_dump dir)) eqn:Df;
    cbn [denied files]; rewrite ?Da, ?Dp, ?Df; cbn [denied files];
    rewrite ?Da, ?Dp, ?Df; cbn [denied files];
    (split_and!;
     [ reflexivity
     | repeat first [ rewrite lookup_insert_eq | rewrite lookup_insert_ne by congruence ];
       reflexivity ..
     | intros q Hqa Hqp Hqf;
       repeat (rewrite lookup_insert_ne by congruence); reflexivity
     | reflexivity ]).
Qed.

Lemma Export_files_written_witness :
  files (Export small_ledger "d" stale_dir).1 !! "d/accounts.dump" =
    Some (dump_accounts (accounts small_ledger)) /\
  files (Export small_ledger "d" stale_dir).1 !! "e/payments.dump" =
    files stale_dir !! "e/payments.dump".
Proof.
  split.
  - apply (proj1 (proj2 (Export_files_written small_ledger "d" stale_dir))).
  - apply (proj1 (proj2 (proj2 (proj2 (proj2
             (Export_files_written small_ledger "d" stale_dir)))))); discriminate.
Defined.

(** ** Importing a dump into another service *)

(** Lines whose keys are new and distinct: each one appends an entity. *)
Lemma import_lines_append {A K : Type} (key : A -> K)
    (step : list A -> string -> list A * outcome unit) (text : A -> string)
    (rebuild : A -> A) (src : list A) :
  (forall a, key (rebuild a) = key a) ->
  (forall l a, a ∈ src -> key a ∉ map key l ->
     step l (text a) = (l ++ [rebuild a], Ok tt)) ->
  NoDup (map key src) ->
  forall l, (forall a, a ∈ src -> key a ∉ map key l) ->
  import_lines step l (map text src) = (l ++ map rebuild src, Ok tt).
Proof.
  intros Hkey Hstep. induction src as [|a src IH]; intros Hnd l Hnew.
  - cbn. rewrite app_nil_r. reflexivity.
  - cbn [map] in Hnd. apply NoDup_cons in Hnd as [Ha Hnd].
    cbn [map import_lines].
    rewrite Hstep by (try apply Hnew; apply elem_of_cons; auto).
    rewrite IH.
    + rewrite <- app_assoc. reflexivity.
    + intros l' b Hb. apply Hstep. apply elem_of_cons. auto.
    + assumption.
    + intros b Hb. rewrite map_app. cbn [map]. rewrite Hkey.
      intros Hin. apply elem_of_app in Hin as [Hin | Hin].
      * apply (Hnew b); [apply elem_of_cons; auto | assumption].
      * apply list_elem_of_singleton in Hin. apply Ha. rewrite <- Hin.
        apply list_elem_of_fmap. eauto.
Qed.

Lemma import_foreign_accounts (fs : FS) (path : string) (l l0 : list Account.t) :
  Forall account_plain_B l -> NoDup (map Account.ID l) ->
  (forall a, a ∈ l -> Account.ID a ∉ map Account.ID l0) ->
  files fs !! path = match l with [] => None | _ => Some (dump_accounts l) end ->
  import_dump import_account_line fs path l0 = (l0 ++ l, Ok tt).
Proof.
  intros Hl Hnd Hnew Hfile. unfold import_dump. rewrite Hfile. destruct l as [|a0 l1] eqn:El.
  { rewrite app_nil_r. reflexivity. }
  rewrite <- El in *. clear El a0 l1 Hfile.
  rewrite (Split_lines account_text dump_accounts l eq_refl dump_accounts_cons).
  - rewrite (import_lines_append Account.ID _ _ (fun a => a)); try assumption.
    + rewrite map_id. reflexivity.
    + reflexivity.
    + intros l2 a Ha Hk. rewrite import_account_line_text
        by (eapply Forall_forall in Hl; eassumption).
      rewrite merge_account_spec, decide_False by assumption. destruct a. reflexivity.
  - eapply Forall_impl; [exact Hl|]. intros a (_ & Hs & Hn).
    apply account_text_free; try assumption; try discriminate. reflexivity.
Qed.

Lemma import_foreign_payments (fs : FS) (path : string) (l l0 : list Payment.t) :
  Forall payment_plain_B l -> NoDup (map Payment.ID l) ->
  (forall a, a ∈ l -> Payment.ID a ∉ map Payment.ID l0) ->
  files fs !! path = match l with [] => None | _ => Some (dump_payments l) end ->
  import_dump import_payment_line fs path l0 = (l0 ++ l, Ok tt).
Proof.
  intros Hl Hnd Hnew Hfile. unfold import_dump. rewrite Hfile. destruct l as [|a0 l1] eqn:El.
  { rewrite app_nil_r. reflexivity. }
  rewrite <- El in *. clear El a0 l1 Hfile.
  rewrite (Split_lines payment_text dump_payments l eq_refl dump_payments_cons).
  - rewrite (import_lines_append Payment.ID _ _ (fun a => a)); try assumption.
    + rewrite map_id. reflexivity.
    + reflexivity.
    + intros l2 a Ha Hk. rewrite import_payment_line_text
        by (eapply Forall_forall in Hl; eassumption).
      rewrite merge_payment_spec, decide_False by assumption. destruct a. reflexivity.
  - eapply Forall_impl; [exact Hl|]. intros a Ha. apply payment_text_free, Ha.
Qed.

Lemma import_foreign_favorites (fs : FS) (path : string) (l l0 : list Favorite.t) :
  Forall favorite_plain_B l -> NoDup (map Favorite.ID l) ->
  (forall a, a ∈ l -> Favorite.ID a ∉ map Favorite.ID l0) ->
  files fs !! path = match l with [] => None | _ => Some (dump_favorites l) end ->
  import_dump import_favorite_line fs path l0 = (l0 ++ map forget_name l, Ok tt).
Proof.
  intros Hl Hnd Hnew Hfile. unfold import_dump. rewrite Hfile. destruct l as [|a0 l1] eqn:El.
  { rewrite app_nil_r. reflexivity. }
  rewrite <- El in *. clear El a0 l1 Hfile.
  rewrite (Split_lines favorite_text dump_favorites l eq_refl dump_favorites_cons).
  - rewrite (import_lines_append Favorite.ID _ _ forget_name); try assumption.
    + reflexivity.
    + reflexivity.
    + intros l2 a Ha Hk. rewrite import_favorite_line_text
        by (eapply Forall_forall in Hl; eassumption).
      rewrite merge_favorite_spec, decide_False by assumption. reflexivity.
  - eapply Forall_impl; [exact Hl|]. intros a Ha. apply favorite_text_free, Ha.
Qed.

(** X12. When no text field of a service contains [;] or a line feed, its
    identifiers are distinct within each collection and the dumps present
    after [Export] are those that [Export] wrote, [Import] of the directory
    into a service that has none of these identifiers returns no error and
    appends the accounts and the payments as they are, in order, and the
    favorites with an empty name; the counter of the importing service is
    not changed. *)
Theorem Import_into_other (s s0 : Service) (dir : string) (fs : FS) :
  Forall account_plain_B (accounts s) -> Forall payment_plain_B (payments s) ->
  Forall favorite_plain_B (favorites s) ->
  dump_fresh fs (accounts_dump dir) (accounts s) ->
  dump_fresh fs (payments_dump dir) (payments s) ->
  dump_fresh fs (favorites_dump dir) (favorites s) ->
  NoDup (map Account.ID (accounts s)) -> NoDup (map Payment.ID (payments s)) ->
  NoDup (map Favorite.ID (favorites s)) ->
  (forall a, a ∈ accounts s -> Account.ID a ∉ map Account.ID (accounts s0)) ->
  (forall p, p ∈ payments s -> Payment.ID p ∉ map Payment.ID (payments s0)) ->
  (forall f, f ∈ favorites s -> Favorite.ID f ∉ map Favorite.ID (favorites s0)) ->
  Import s0 dir (Export s dir fs).1 =
    (mkService (nextAccountID s0) (accounts s0 ++ accounts s) (payments s0 ++ payments s)
       (favorites s0 ++ map forget_name (favorites s)),
     Ok tt).
Proof.
  intros Hpa Hpp Hpf Hfa Hfp Hff Hna Hnp Hnf Hda Hdp Hdf.
  destruct (Export_files s dir fs Hfa Hfp Hff) as (Ea & Ep & Ef).
  unfold Import.
  rewrite (import_foreign_accounts _ _ (accounts s)) by assumption.
  cbn [payments set_accounts].
  rewrite (import_foreign_payments _ _ (payments s)) by assumption.
  cbn [favorites set_payments set_accounts].
  rewrite (import_foreign_favorites _ _ (favorites s)) by assumption.
  reflexivity.
Qed.

Lemma Import_into_other_witness :
  Import newService "d" (Export small_ledger "d" no_files).1 =
    (mkService 0 (accounts small_ledger) (payments small_ledger)
       [Favorite.mk "f1" 1 "" 40 "food"],
     Ok tt).
Proof.
  assert (forall z, - 1000 <= z <= 1000 -> int64_range z) as Hr
    by (intros z Hz; int64_arith).
  apply (Import_into_other small_ledger newService "d" no_files).
  - repeat constructor; try reflexivity; apply Hr; simpl; lia.
  - repeat constructor; try reflexivity; apply Hr; simpl; lia.
  - repeat constructor; try reflexivity; apply Hr; simpl; lia.
  - reflexivity.
  - reflexivity.
  - reflexivity.
  - repeat constructor; intros H; apply elem_of_nil in H; contradiction.
  - repeat constructor; intros H; apply elem_of_nil in H; contradiction.
  - repeat constructor; intros H; apply elem_of_nil in H; contradiction.
  - intros a _ H. apply elem_of_nil in H. contradiction.
  - intros a _ H. apply elem_of_nil in H. contradiction.
  - intros a _ H. apply elem_of_nil in H. contradiction.
Defined.

(** ** Partial application of a dump *)

Lemma import_lines_app {A : Type} (step : list A -> string -> list A * outcome unit)
    (good rest : list string) (l : list A) :
  import_lines step l (good ++ rest) =
  match import_lines step l good with
  | (l1, Ok _) => import_lines step l1 rest
  | (l1, r) => (l1, r)
  end.
Proof.
  revert l. induction good as [|v good IH]; intros l; [reflexivity|].
  cbn [app import_lines]. destruct (step l v) as [l' [[]|e|]]; [apply IH | reflexivity..].
Qed.

(** The texts of records followed by a line that fails with an error: the
    records are merged and the error is returned. *)
Lemma import_lines_stop {A : Type} (step : list A -> string -> list A * outcome unit)
    (text : A -> string) (merge1 : list A -> A -> list A) (recs : list A)
    (bad : string) (rest : list string) (e : error) (l : list A) :
  (forall l a, a ∈ recs -> step l (text a) = (merge1 l a, Ok tt)) ->
  (forall l, step l bad = (l, Err e)) ->
  import_lines step l (map text recs ++ bad :: rest) = (foldl merge1 l recs, Err e).
Proof.
  intros Hstep Hbad. rewrite import_lines_app, (import_lines_merged _ _ merge1) by assumption.
  cbn [import_lines]. rewrite Hbad. reflexivity.
Qed.

(** X13. [Import] is not atomic.  When the first lines of [accounts.dump]
    are the texts of records and the next line has an identifier that is not
    an integer, [Import] returns the parse error: these records have been
    merged into the accounts, the rest of the file and the two other files
    are not read.  When [accounts.dump] is missing or holds the texts of
    records and a line of [payments.dump] has an account identifier that is
    not an integer, the error is returned with the accounts and the payments
    of the lines before already merged, and the favorites are not read. *)
Theorem Import_stops_at_bad_line (s : Service) (dir : string) (fs : FS)
    (content : string) (rest : list string) (bad : string) (e : error) :
  (forall (ra : list Account.t) f0 fields,
     files fs !! accounts_dump dir = Some content ->
     lines_of content = map account_text ra ++ bad :: rest ->
     Forall account_plain_B ra ->
     Split bad semicolon = f0 :: fields -> ParseInt f0 = Err e ->
     Import s dir fs =
       (mkService (nextAccountID s) (merged_accounts (accounts s) ra) (payments s)
          (favorites s),
        Err e)) /\
  (forall (oa : option (list Account.t)) (rp : list Payment.t) id f1 fields,
     files fs !! accounts_dump dir = dump_accounts <$> oa ->
     Forall account_plain_B (default [] oa) ->
     files fs !! payments_dump dir = Some content ->
     lines_of content = map payment_text rp ++ bad :: rest ->
     Forall payment_plain_B rp ->
     Split bad semicolon = id :: f1 :: fields -> ParseInt f1 = Err e ->
     Import s dir fs =
       (mkService (nextAccountID s) (merged_accounts (accounts s) (default [] oa))
          (merged_payments (payments s) rp) (favorites s),
        Err e)).
Proof.
  split.
  - intros ra f0 fields Hfile Hlines Hplain Hsplit Hparse.
    unfold Import, import_dump. rewrite Hfile, Hlines.
    rewrite (import_lines_stop _ _ merge_one_account _ _ _ e); [reflexivity | |].
    + intros l a Ha. apply import_account_line_merge.
      eapply Forall_forall in Hplain; eassumption.
    + intros l. unfold import_account_line. rewrite Hsplit.
      cbn [index lookup list_lookup mbind outcome_bind]. rewrite Hparse. reflexivity.
  - intros oa rp id f1 fields Hacc Hpa Hfile Hlines Hplain Hsplit Hparse.
    unfold Import. rewrite (import_dump_accounts _ _ oa) by assumption.
    cbn [payments set_accounts]. unfold import_dump. rewrite Hfile, Hlines.
    rewrite (import_lines_stop _ _ merge_one_payment _ _ _ e); [reflexivity | |].
    + intros l a Ha. apply import_payment_line_merge.
      eapply Forall_forall in Hplain; eassumption.
    + intros l. unfold import_payment_line. rewrite Hsplit.
      cbn [index lookup list_lookup mbind outcome_bind]. rewrite Hparse. reflexivity.
Qed.

Lemma Import_stops_at_bad_line_witness :
  Import one_account "d" broken_dir =
    (mkService 1 [Account.mk 1 "new" 5] [] [], Err ErrSyntax).
Proof.
  apply (proj1 (Import_stops_at_bad_line one_account "d" broken_dir
                  ("1;new;5" +:+ nl +:+ "x;b;7" +:+ nl +:+ "9;c;9" +:+ nl)
                  ["9;c;9"] "x;b;7" ErrSyntax)
           [Account.mk 1 "new" 5] "x" ["b"; "7"]); try reflexivity.
  repeat constructor; try reflexivity; int64_arith.
Defined.

(** ** Negative numbers of workers *)

(** X14. With a negative number of workers above the least [int],
    [SumPayments] starts no worker in the loop: it does not panic, the only
    slice is the whole list of payments and the result is the sum of all the
    amounts (in [int64]). *)
Theorem SumPayments_negative (s : Service) (goroutines : Z) :
  int64_min < goroutines < 0 ->
  chunks (payments s) goroutines = Ok [payments s] /\
  SumPayments s goroutines = Ok (wrap64 (sum_amounts (payments s))).
Proof.
  intros Hg.
  assert (chunks (payments s) goroutines = Ok [payments s]) as Hc.
  { unfold chunks, loop_count. rewrite wrap64_id by int64_arith.
    replace (Z.to_nat (goroutines - 1)) with 0%nat by lia.
    cbn [loop_chunks]. change (Z.of_nat 0) with 0. rewrite Z.mul_0_l.
    rewrite slice_Ok by lia.
    cbn [app]. rewrite Z.sub_0_r, Nat2Z.id. change (Z.to_nat 0) with 0%nat.
    rewrite drop_0, take_ge by lia. reflexivity. }
  split; [exact Hc|]. unfold SumPayments. rewrite Hc. cbn [map].
  rewrite accumulate_sum, worker_sum. cbn [zsum foldr].
  rewrite wrap64_add_l, Z.add_0_r. reflexivity.
Qed.

Lemma SumPayments_negative_witness : SumPayments five_payments (-2) = Ok 415.
Proof.
  apply (proj2 (SumPayments_negative five_payments (-2) ltac:(int64_arith))).
Defined.

(** ** Looking up a new account *)

(** X15. When no account has an identifier above the counter and the
    counter is below the greatest [int64], a successful [RegisterAccount]
    returns an account that [FindAccountByID] finds under its identifier,
    and the lookups of the other identifiers give what they gave before. *)
Theorem RegisterAccount_then_find (s s' : Service) (phone : Phone) (i : nat) :
  Forall (fun a => Account.ID a <= nextAccountID s) (accounts s) ->
  int64_range (nextAccountID s) -> nextAccountID s < int64_max ->
  RegisterAccount s phone = (s', Ok i) ->
  FindAccountByID s' (nextAccountID s + 1) =
    Ok (i, Account.mk (nextAccountID s + 1) phone 0) /\
  (forall a, a <> nextAccountID s + 1 -> FindAccountByID s' a = FindAccountByID s a).
Proof.
  intros Hle Hr Hmax Hreg. unfold RegisterAccount in Hreg.
  destruct (existsb (has_phone phone) (accounts s)); [discriminate|].
  rewrite wrap64_id in Hreg by int64_arith. injection Hreg as <- <-.
  unfold FindAccountByID, lookup_account. cbn [accounts]. split.
  - rewrite list_find_app_r.
    + cbn. rewrite decide_True by reflexivity. cbn. reflexivity.
    + apply list_find_None. eapply Forall_impl; [exact Hle|]. cbn. intros a Ha. lia.
  - intros a Ha.
    destruct (list_find (fun acc => Account.ID acc = a) (accounts s)) as [[j y]|] eqn:E.
    + rewrite (list_find_app_l _ _ _ _ _ E). reflexivity.
    + rewrite list_find_app_r by assumption. cbn.
      rewrite decide_False by congruence. reflexivity.
Qed.

Lemma RegisterAccount_then_find_witness :
  FindAccountByID (RegisterAccount one_account "+992000000002").1 2 =
    Ok (1%nat, Account.mk 2 "+992000000002" 0).
Proof.
  apply (proj1 (RegisterAccount_then_find one_account
                  (RegisterAccount one_account "+992000000002").1 "+992000000002" 1%nat
                  ltac:(repeat constructor; simpl; lia) ltac:(int64_arith)
                  ltac:(int64_arith) eq_refl)).
Defined.

(** ** Lines of a dump that lack a field read in the inner loop *)




